(** * kubectl-enhanced-cli: the decision engine

    A shallow embedding of the action classifier ([pkg/rbac]), the
    configuration resolver ([pkg/config]) and the guarded part of [main],
    followed by the properties of the specification that concern them.

    Go strings are byte sequences and are modelled by [string]; slices are
    lists; Go maps are [gmap]s, and a [range] over a map is a traversal of its
    entries in an order the language leaves open. *)

From Stdlib Require Import String Ascii List ZArith.
From stdpp Require Import base option list strings gmap fin_maps.

Local Open Scope string_scope.

(** ** The parts of Go's [strings] package the program uses *)

(** The Unicode tables behind [strings.ToLower] are outside the program; the
    slow path of [ToLower] is taken as a capability. *)
Class Unicode := {
  (** [strings.Map(unicode.ToLower, s)] *)
  unicode_ToLower_Map : string → string
}.

Module strings.

(** [strings.HasPrefix(s, prefix)] *)
Definition HasPrefix (s prefix : string) : bool := String.prefix prefix s.

(** [strings.Contains(s, substr)]: [strings.Index(s, substr) >= 0] *)
Definition Contains (s substr : string) : bool :=
  match String.index 0 substr s with
  | Some _ => true
  | None => false
  end.

(** [c >= utf8.RuneSelf] *)
Definition geRuneSelf (c : ascii) : bool := (128 <=? nat_of_ascii c)%nat.

(** ['A' <= c && c <= 'Z'] *)
Definition isUpperByte (c : ascii) : bool :=
  ((65 <=? nat_of_ascii c) && (nat_of_ascii c <=? 90))%nat.

(** [c += 'a' - 'A'] on an upper-case byte, other bytes unchanged *)
Definition lowerByte (c : ascii) : ascii :=
  if isUpperByte c then ascii_of_nat (nat_of_ascii c + 32) else c.

Fixpoint isASCII (s : string) : bool :=
  match s with
  | EmptyString => true
  | String c s' => if geRuneSelf c then false else isASCII s'
  end.

Fixpoint hasUpper (s : string) : bool :=
  match s with
  | EmptyString => false
  | String c s' => isUpperByte c || hasUpper s'
  end.

Fixpoint lowerBytes (s : string) : string :=
  match s with
  | EmptyString => EmptyString
  | String c s' => String (lowerByte c) (lowerBytes s')
  end.

(** [strings.ToLower]: ASCII-only strings are lowered byte by byte (and
    returned as they are when they hold no upper-case letter); any other
    string goes through the Unicode tables. *)
Definition ToLower `{Unicode} (s : string) : string :=
  if isASCII s then
    if hasUpper s then lowerBytes s else s
  else unicode_ToLower_Map s.

(** [strings.Join(elems, sep)] *)
Fixpoint Join (elems : list string) (sep : string) : string :=
  match elems with
  | [] => ""
  | [e] => e
  | e :: rest => e +:+ sep +:+ Join rest sep
  end.

End strings.

(** ** [pkg/config]: the configuration model and its resolution *)

(** The two pattern matchers [matchGlob] calls, [github.com/gobwas/glob] and
    [path/filepath], are libraries outside the program: resolution depends
    on them only as a pattern-matcher capability. *)
Class PatternLib := {
  (** a compiled [glob.Glob] *)
  Glob : Type;
  (** [glob.Compile(pattern)]; [None] when it returns an error *)
  glob_Compile : string → option Glob;
  (** [g.Match(str)] *)
  glob_Match : Glob → string → bool;
  (** [filepath.Match(pattern, name)]: [(matched, err != nil)] *)
  filepath_Match : string → string → bool * bool
}.

Module config.

Module DefaultsConfig.
Record t := mk {
  RequireConfirmation : bool;
  BlockedActions : list string
}.
End DefaultsConfig.

Module ClusterRules.
Record t := mk {
  Tier : string;
  RequireConfirmation : list string;
  BlockedActions : list string
}.
End ClusterRules.

Module TierConfig.
Record t := mk {
  Patterns : list string;
  RequireConfirmation : list string;
  BlockedActions : list string
}.
End TierConfig.

Module ResolvedRules.
Record t := mk {
  Tier : string;
  RequireConfirmation : list string;
  BlockedActions : list string
}.
End ResolvedRules.

Record Config := mkConfig {
  Defaults : DefaultsConfig.t;
  Clusters : gmap string ClusterRules.t;
  Tiers : gmap string TierConfig.t
}.

(** [Default] returns the built-in configuration. *)
Definition Default : Config :=
  {| Defaults := DefaultsConfig.mk false [];
     Clusters := ∅;
     Tiers :=
       list_to_map
         [ ("production",
            TierConfig.mk
              ["*-prod"; "*-production"; "prod-*"; "production-*"]
              ["delete"; "drain"] []);
           ("staging",
            TierConfig.mk
              ["*-staging"; "*-stg"; "staging-*"; "stg-*"]
              ["delete"] []);
           ("development",
            TierConfig.mk
              ["*-dev"; "*-development"; "dev-*"; "development-*";
               "local*"; "minikube"; "docker-desktop"; "kind-*"]
              [] []) ] |}.

(** A [for k, v := range m] statement visits every entry of [m] exactly
    once, in an order Go does not specify: [l] is a possible order of
    visit when it is a permutation of the entries. *)
Definition range_order {V} (m : gmap string V) (l : list (string * V)) : Prop :=
  l ≡ₚ map_to_list m.

Section Resolution.
Context `{PatternLib}.

(** [matchGlob]: the error of [filepath.Match] is dropped. *)
Definition matchGlob (pattern str : string) : bool :=
  match glob_Compile pattern with
  | None => fst (filepath_Match pattern str)
  | Some g => glob_Match g str
  end.

Definition ofCluster (rules : ClusterRules.t) : ResolvedRules.t :=
  {| ResolvedRules.Tier := ClusterRules.Tier rules;
     ResolvedRules.RequireConfirmation := ClusterRules.RequireConfirmation rules;
     ResolvedRules.BlockedActions := ClusterRules.BlockedActions rules |}.

Definition ofTier (tierName : string) (tier : TierConfig.t) : ResolvedRules.t :=
  {| ResolvedRules.Tier := tierName;
     ResolvedRules.RequireConfirmation := TierConfig.RequireConfirmation tier;
     ResolvedRules.BlockedActions := TierConfig.BlockedActions tier |}.

(** Step 2, [for pattern, rules := range c.Clusters], over the entries in
    their order of visit; [None] when the loop ends without returning. *)
Fixpoint rangeClusters (context : string)
    (entries : list (string * ClusterRules.t)) : option ResolvedRules.t :=
  match entries with
  | [] => None
  | (pattern, rules) :: rest =>
      if matchGlob pattern context then Some (ofCluster rules)
      else rangeClusters context rest
  end.

(** The inner loop of step 3, [for _, pattern := range tier.Patterns]. *)
Fixpoint rangePatterns (context tierName : string) (tier : TierConfig.t)
    (patterns : list string) : option ResolvedRules.t :=
  match patterns with
  | [] => None
  | pattern :: rest =>
      if matchGlob pattern context then Some (ofTier tierName tier)
      else rangePatterns context tierName tier rest
  end.

(** Step 3, [for tierName, tier := range c.Tiers]. *)
Fixpoint rangeTiers (context : string)
    (entries : list (string * TierConfig.t)) : option ResolvedRules.t :=
  match entries with
  | [] => None
  | (tierName, tier) :: rest =>
      match rangePatterns context tierName tier (TierConfig.Patterns tier) with
      | Some r => Some r
      | None => rangeTiers context rest
      end
  end.

(** Step 4 of [GetClusterRules]. *)
Definition defaultRules (c : Config) : ResolvedRules.t :=
  let confirmActions :=
    if DefaultsConfig.RequireConfirmation (Defaults c)
    then ["delete"; "drain"] else [] in
  {| ResolvedRules.Tier := "default";
     ResolvedRules.RequireConfirmation := confirmActions;
     ResolvedRules.BlockedActions := DefaultsConfig.BlockedActions (Defaults c) |}.

(** [GetClusterRules] for given orders of visit of the two maps. *)
Definition GetClusterRules_in
    (clusterOrder : list (string * ClusterRules.t))
    (tierOrder : list (string * TierConfig.t))
    (c : Config) (context : string) : ResolvedRules.t :=
  match Clusters c !! context with
  | Some rules => ofCluster rules
  | None =>
      match rangeClusters context clusterOrder with
      | Some r => r
      | None =>
          match rangeTiers context tierOrder with
          | Some r => r
          | None => defaultRules c
          end
      end
  end.

(** [c.GetClusterRules(context)] may return [r]. *)
Definition GetClusterRules (c : Config) (context : string)
    (r : ResolvedRules.t) : Prop :=
  ∃ clusterOrder tierOrder,
    range_order (Clusters c) clusterOrder ∧
    range_order (Tiers c) tierOrder ∧
    r = GetClusterRules_in clusterOrder tierOrder c context.

End Resolution.

End config.

(** ** [pkg/rbac]: action classification and rule matching *)

Module rbac.

Definition ActionDelete := "delete".
Definition ActionDrain := "drain".
Definition ActionCordon := "cordon".
Definition ActionScale := "scale".
Definition ActionEdit := "edit".
Definition ActionPatch := "patch".
Definition ActionApply := "apply".
Definition ActionCreate := "create".
Definition ActionExec := "exec".
Definition ActionRollout := "rollout".
Definition ActionUnknown := "unknown".

(** [DestructiveActions] maps kubectl commands to their action type. *)
Definition DestructiveActions : gmap string string :=
  list_to_map
    [ ("delete", ActionDelete);
      ("drain", ActionDrain);
      ("cordon", ActionCordon);
      ("uncordon", ActionCordon);
      ("scale", ActionScale);
      ("edit", ActionEdit);
      ("patch", ActionPatch);
      ("apply", ActionApply);
      ("create", ActionCreate);
      ("exec", ActionExec);
      ("rollout", ActionRollout) ].

(** Flags that take a value argument. *)
Definition flagsWithValues : gmap string bool :=
  list_to_map
    [ ("-n", true); ("--namespace", true);
      ("-l", true); ("--selector", true);
      ("-o", true); ("--output", true);
      ("-f", true); ("--filename", true);
      ("--context", true); ("--kubeconfig", true);
      ("--cluster", true); ("--user", true);
      ("-c", true); ("--container", true);
      ("--field-selector", true); ("--sort-by", true);
      ("--template", true);
      ("-p", true); ("--patch", true);
      ("--type", true); ("--replicas", true);
      ("--timeout", true); ("--grace-period", true) ].

(** [flagsWithValues[arg]]: a missing key reads as [false]. *)
Definition takesValue (arg : string) : bool :=
  default false (flagsWithValues !! arg).

(** The [for _, arg := range args] loop of [DetectAction], with the loop
    variable [skipNext] as an argument; falling off the end of the loop
    reaches the final [return ActionUnknown]. *)
Fixpoint DetectAction_loop (skipNext : bool) (args : list string) : string :=
  match args with
  | [] => ActionUnknown
  | arg :: rest =>
      if skipNext then DetectAction_loop false rest
      else if strings.HasPrefix arg "--" && strings.Contains arg "="
      then DetectAction_loop false rest
      else if strings.HasPrefix arg "-"
      then if takesValue arg then DetectAction_loop true rest
           else DetectAction_loop false rest
      else match DestructiveActions !! arg with
           | Some action => action
           | None => arg
           end
  end.

Definition DetectAction (args : list string) : string :=
  match args with
  | [] => ActionUnknown
  | _ => DetectAction_loop false args
  end.

(** [matchAction] checks if an action matches a rule. *)
Definition matchAction `{Unicode} (rule action : string) : bool :=
  let rule := strings.ToLower rule in
  let action := strings.ToLower action in
  if (rule =? action)%string then true
  else if (rule =? ActionDrain)%string
  then (action =? ActionDrain)%string || (action =? ActionCordon)%string
  else if (rule =? ActionDelete)%string then (action =? ActionDelete)%string
  else if (rule =? ActionScale)%string then (action =? ActionScale)%string
  else if (rule =? ActionEdit)%string
  then (action =? ActionEdit)%string || (action =? ActionPatch)%string
  else if (rule =? ActionApply)%string
  then (action =? ActionApply)%string || (action =? ActionCreate)%string
  else if (rule =? ActionExec)%string then (action =? ActionExec)%string
  else if (rule =? ActionRollout)%string then (action =? ActionRollout)%string
  else false.

(** The loop shared by [IsBlocked] and [RequiresConfirmation]. *)
Fixpoint anyMatch `{Unicode} (action : string) (rules : list string) : bool :=
  match rules with
  | [] => false
  | rule :: rest => if matchAction rule action then true else anyMatch action rest
  end.

Definition IsBlocked `{Unicode} (action : string)
    (rules : config.ResolvedRules.t) : bool :=
  anyMatch action (config.ResolvedRules.BlockedActions rules).

Definition RequiresConfirmation `{Unicode} (action : string)
    (rules : config.ResolvedRules.t) : bool :=
  anyMatch action (config.ResolvedRules.RequireConfirmation rules).

(** [GetActionSeverity] returns a severity level for display purposes. *)
Definition GetActionSeverity (action : string) : string :=
  if (action =? ActionDelete)%string || (action =? ActionDrain)%string
  then "high"
  else if (action =? ActionScale)%string || (action =? ActionCordon)%string
  then "medium"
  else if (action =? ActionEdit)%string || (action =? ActionPatch)%string
          || (action =? ActionRollout)%string
  then "medium"
  else if (action =? ActionApply)%string || (action =? ActionCreate)%string
  then "low"
  else "none".

(** [DescribeAction] returns a human-readable description of the action. *)
Definition DescribeAction (action : string) : string :=
  if (action =? ActionDelete)%string then "Delete resources"
  else if (action =? ActionDrain)%string then "Drain node (evict all pods)"
  else if (action =? ActionCordon)%string then "Cordon/uncordon node"
  else if (action =? ActionScale)%string then "Scale deployment replicas"
  else if (action =? ActionEdit)%string then "Edit resource configuration"
  else if (action =? ActionPatch)%string then "Patch resource"
  else if (action =? ActionApply)%string then "Apply configuration"
  else if (action =? ActionCreate)%string then "Create resource"
  else if (action =? ActionExec)%string then "Execute command in pod"
  else if (action =? ActionRollout)%string then "Manage rollout"
  else action.

End rbac.

(** ** [main]: the wrapper around kubectl *)

Module main.

(** What [main] does to the outside world, in order. *)
Inductive Event :=
| PrintVersion
| PrintUsage (isPlugin : bool)
| PrintConfigPath
| HandleInit (args : list string)
| PrintError (message : string)
| PrintWarning (message : string)
| PrintSublog (message : string)
| PrintBlocked (action cluster reason : string)
| PrintConfirmationHeader (action cluster tier : string)
| PrintEmptyLine
| PromptConfirmation (prompt : string)
| Execute (args : list string).

(** A run of the process: the events it performed and the status code it
    ends with, the argument of [os.Exit]. *)
Definition Run : Type := list Event * Z.

(** The error of [config.Load]: its message and [os.IsNotExist(err)]. *)
Record LoadError := { loadMessage : string; isNotExist : bool }.

(** The answers of the outside world to [main]. *)
Record World := {
  (** [filepath.Base(os.Args[0])] *)
  execName : string;
  (** the exit status of the [init] wizard *)
  initStatus : list string → Z;
  CheckKubectlAvailable : bool;
  Load : config.Config + LoadError;
  GetCurrentContext : string + string;
  GetNamespace : list string → string;
  (** the answer typed at the confirmation prompt *)
  confirmed : string → bool;
  (** the code [kubectl.Execute] returns on the given arguments *)
  exitCode : list string → Z;
  (** the order of visit of the maps of the configuration *)
  clusterOrder : gmap string config.ClusterRules.t →
                 list (string * config.ClusterRules.t);
  tierOrder : gmap string config.TierConfig.t →
              list (string * config.TierConfig.t)
}.

(** The loop that extracts [--yes]/[-y], with its two variables
    [hasYesFlag] and [filteredArgs] as accumulators. *)
Fixpoint extractYes (hasYesFlag : bool) (filteredArgs args : list string)
    : bool * list string :=
  match args with
  | [] => (hasYesFlag, filteredArgs)
  | arg :: rest =>
      if (arg =? "--yes")%string || (arg =? "-y")%string
      then extractYes true filteredArgs rest
      else extractYes hasYesFlag (filteredArgs ++ [arg])%list rest
  end.

(** The orders of visit of a world are orders Go may choose. *)
Definition wellOrdered (w : World) : Prop :=
  (∀ m, config.range_order m (clusterOrder w m)) ∧
  (∀ m, config.range_order m (tierOrder w m)).

(** [formatArgs] *)
Definition formatArgs (args : list string) : string := strings.Join args " ".

Section Main.
Context `{Unicode} `{PatternLib}.

(** The block check, the confirmation check and the execution of
    kubectl, from [rbac.IsBlocked] to the end of [main]. *)
Definition enforce (w : World) (context : string) (args : list string)
    (hasYesFlag : bool) (action : string)
    (rules : config.ResolvedRules.t) : Run :=
  if rbac.IsBlocked action rules then
    ([PrintBlocked action context
        ("Action '" +:+ action +:+ "' is configured as blocked for tier '"
           +:+ config.ResolvedRules.Tier rules +:+ "'")], 1%Z)
  else if rbac.RequiresConfirmation action rules && negb hasYesFlag then
    let namespace := GetNamespace w args in
    let asked :=
      [PrintConfirmationHeader (rbac.DescribeAction action) context
         (config.ResolvedRules.Tier rules);
       PrintSublog ("Namespace: " +:+ namespace);
       PrintSublog ("Command: kubectl " +:+ formatArgs args);
       PrintEmptyLine;
       PromptConfirmation "Do you want to proceed?"] in
    if negb (confirmed w "Do you want to proceed?") then
      ((asked ++ [PrintSublog "Operation cancelled by user"])%list, 0%Z)
    else
      ((asked ++ [PrintEmptyLine; Execute args])%list, exitCode w args)
  else
    ([Execute args], exitCode w args).

(** [main] once the configuration and the context are known: the
    extraction of [--yes]/[-y], the classification, the resolution of
    the rules and their enforcement. *)
Definition guarded (w : World) (cfg : config.Config) (context : string)
    (args : list string) : Run :=
  let '(hasYesFlag, args) := extractYes false [] args in
  let action := rbac.DetectAction args in
  let rules :=
    config.GetClusterRules_in
      (clusterOrder w (config.Clusters cfg))
      (tierOrder w (config.Tiers cfg)) cfg context in
  enforce w context args hasYesFlag action rules.

(** [main], on [os.Args[1:]]. *)
Definition main (w : World) (args : list string) : Run :=
  let isPlugin := (execName w =? "kubectl-enhanced")%string in
  match args with
  | [] => ([PrintUsage isPlugin], 0%Z)
  | arg0 :: rest =>
      if (arg0 =? "--version")%string || (arg0 =? "-v")%string then
        ([PrintVersion], 0%Z)
      else if (arg0 =? "--help")%string || (arg0 =? "-h")%string then
        ([PrintUsage isPlugin], 0%Z)
      else if (arg0 =? "--config-path")%string then
        ([PrintConfigPath], 0%Z)
      else if (arg0 =? "init")%string then
        ([HandleInit rest], initStatus w rest)
      else if negb (CheckKubectlAvailable w) then
        ([PrintError "kubectl not found in PATH"], 1%Z)
      else
        let '(warned, cfg) :=
          match Load w with
          | inl cfg => ([], cfg)
          | inr err =>
              (if negb (isNotExist err)
               then [PrintWarning ("Could not load config: "
                                   +:+ loadMessage err +:+ " (using defaults)")]
               else [],
               config.Default)
          end in
        match GetCurrentContext w with
        | inr err =>
            ((warned ++
              [PrintError ("Failed to get current context: " +:+ err);
               PrintSublog "Make sure kubectl is configured with a valid context"])%list,
             1%Z)
        | inl context =>
            let '(events, status) := guarded w cfg context args in
            ((warned ++ events)%list, status)
        end
  end.

End Main.

End main.

(** ** More of Go's [strings] package *)

(** [strings.TrimSpace] on a string that holds a byte outside ASCII goes by
    the Unicode tables, which are outside the program. *)
Class UnicodeSpace := {
  (** [strings.TrimSpace(s)], for [s] with a non-ASCII byte *)
  unicode_TrimSpace : string → string
}.

Module gostrings.

(** The ASCII white space: tab, line feed, vertical tab, form feed,
    carriage return and space. *)
Definition asciiSpace (c : ascii) : bool :=
  let n := nat_of_ascii c in
  ((9 <=? n) && (n <=? 13) || (n =? 32))%nat.

Fixpoint trimLeft (s : string) : string :=
  match s with
  | EmptyString => EmptyString
  | String c s' => if asciiSpace c then trimLeft s' else s
  end.

Fixpoint trimRight (s : string) : string :=
  match s with
  | EmptyString => EmptyString
  | String c s' =>
      match trimRight s' with
      | EmptyString => if asciiSpace c then EmptyString else String c EmptyString
      | t => String c t
      end
  end.

(** [strings.TrimSpace]: an ASCII-only string loses its leading and
    trailing ASCII white space. *)
Definition TrimSpace `{UnicodeSpace} (s : string) : string :=
  if strings.isASCII s then trimRight (trimLeft s) else unicode_TrimSpace s.

(** [strings.Split(s, sep)] for a separator [sep] of one byte. *)
Fixpoint SplitByte (s : string) (sep : ascii) : list string :=
  match s with
  | EmptyString => [EmptyString]
  | String c s' =>
      if (c =? sep)%char then EmptyString :: SplitByte s' sep
      else match SplitByte s' sep with
           | [] => [String c EmptyString]
           | piece :: pieces => String c piece :: pieces
           end
  end.

(** [s[len(prefix):]] *)
Fixpoint dropBytes (n : nat) (s : string) : string :=
  match n, s with
  | S n', String _ s' => dropBytes n' s'
  | _, _ => s
  end.

(** [strings.TrimPrefix(s, prefix)] *)
Definition TrimPrefix (s prefix : string) : string :=
  if strings.HasPrefix s prefix then dropBytes (String.length prefix) s else s.

End gostrings.

(** ** [pkg/output]: the confirmation prompt *)

Module output.

(** [PromptConfirmation], given whether standard input is a terminal and
    the line read from it ([None] when reading fails): the answer. *)
Definition PromptConfirmation `{Unicode} `{UnicodeSpace}
    (isStdinTerminal : bool) (line : option string) : bool :=
  if negb isStdinTerminal then false
  else
    match line with
    | None => false
    | Some response =>
        let response := gostrings.TrimSpace (strings.ToLower response) in
        (response =? "y")%string || (response =? "yes")%string
    end.

End output.

(** ** [pkg/kubectl]: the arguments and the output of kubectl *)

Module kubectl.

(** The loop of [GetNamespace] over the arguments; [None] when it ends
    without returning. *)
Fixpoint GetNamespace_loop (args : list string) : option string :=
  match args with
  | [] => None
  | arg :: rest =>
      match (if (arg =? "-n")%string || (arg =? "--namespace")%string
             then head rest else None) with
      | Some value => Some value
      | None =>
          if strings.HasPrefix arg "-n="
          then Some (gostrings.TrimPrefix arg "-n=")
          else if strings.HasPrefix arg "--namespace="
          then Some (gostrings.TrimPrefix arg "--namespace=")
          else GetNamespace_loop rest
      end
  end.

(** [GetNamespace], given the standard output and the exit code of
    [kubectl config view --minify -o jsonpath=...]. *)
Definition GetNamespace `{UnicodeSpace} (view : string * Z)
    (args : list string) : string :=
  match GetNamespace_loop args with
  | Some namespace => namespace
  | None =>
      if (view.2 =? 0)%Z && negb (gostrings.TrimSpace view.1 =? "")%string
      then gostrings.TrimSpace view.1
      else "default"
  end.

(** The loop of [GetAllContexts] over the lines, with [contexts] as
    accumulator. *)
Fixpoint collectLines `{UnicodeSpace} (contexts lines : list string)
    : list string :=
  match lines with
  | [] => contexts
  | line :: rest =>
      let line := gostrings.TrimSpace line in
      if negb (line =? "")%string
      then collectLines (contexts ++ [line])%list rest
      else collectLines contexts rest
  end.

(** [GetAllContexts], given the standard output and the exit code of
    [kubectl config get-contexts -o name]; [inr] is its error. *)
Definition GetAllContexts `{UnicodeSpace} (listing : string * Z)
    : list string + string :=
  if negb (listing.2 =? 0)%Z then inr "failed to get contexts"
  else
    inl (collectLines []
           (gostrings.SplitByte (gostrings.TrimSpace listing.1) "010"%char)).

End kubectl.

(** ** [pkg/init]: the creation of a configuration file *)

Module initpkg.

Record Options := mkOptions {
  NonInteractive : bool;
  Force : bool;
  ProdPatterns : list string;
  StagingPatterns : list string;
  DevPatterns : list string;
  ProdActions : list string;
  StagingActions : list string;
  BlockedActions : list string;
  OutputPath : string
}.

Definition DefaultOptions : Options :=
  {| NonInteractive := false;
     Force := false;
     ProdPatterns := ["*-prod"; "*-production"; "prod-*"; "production-*"];
     StagingPatterns := ["*-staging"; "*-stg"; "staging-*"; "stg-*"];
     DevPatterns := ["*-dev"; "*-development"; "dev-*"; "development-*";
                     "local*"; "minikube"; "docker-desktop"; "kind-*"];
     ProdActions := ["delete"; "drain"];
     StagingActions := ["delete"];
     BlockedActions := [];
     OutputPath := "" |}.

(** The loop of [parseCommaSeparated], with [result] as accumulator. *)
Fixpoint collectParts `{UnicodeSpace} (result parts : list string)
    : list string :=
  match parts with
  | [] => result
  | p :: rest =>
      let p := gostrings.TrimSpace p in
      if negb (p =? "")%string
      then collectParts (result ++ [p])%list rest
      else collectParts result rest
  end.

Definition parseCommaSeparated `{UnicodeSpace} (input : string) : list string :=
  collectParts [] (gostrings.SplitByte input ","%char).

(** [formatActions] formats actions for display. *)
Definition formatActions (actions : list string) : string :=
  match actions with
  | [] => "(none)"
  | _ => strings.Join actions ", "
  end.

(** [buildConfigFromOptions] creates a config from non-interactive
    options: the three assignments to [cfg.Tiers] in turn. *)
Definition buildConfigFromOptions (opts : Options) : config.Config :=
  let tiers0 : gmap string config.TierConfig.t := ∅ in
  let tiers1 :=
    match ProdPatterns opts with
    | [] => tiers0
    | _ => <["production" :=
               config.TierConfig.mk (ProdPatterns opts) (ProdActions opts) []]>
             tiers0
    end in
  let tiers2 :=
    match StagingPatterns opts with
    | [] => tiers1
    | _ => <["staging" :=
               config.TierConfig.mk (StagingPatterns opts) (StagingActions opts) []]>
             tiers1
    end in
  let tiers3 :=
    match DevPatterns opts with
    | [] => tiers2
    | _ => <["development" :=
               config.TierConfig.mk (DevPatterns opts) [] []]> tiers2
    end in
  {| config.Defaults := config.DefaultsConfig.mk false (BlockedActions opts);
     config.Clusters := ∅;
     config.Tiers := tiers3 |}.

(** What [Run] does to the outside world. *)
Inductive Event :=
| PrintWarning (message : string)
| PrintSublog (message : string)
| PrintSuccess (message : string)
| AskYesNo (question : string) (defaultYes : bool)
| Interactive
| WriteConfig (cfg : config.Config) (path : string).

(** The answers of the outside world to [Run]. *)
Record World := {
  (** [config.ConfigPath()] *)
  ConfigPath : string;
  (** [os.Stat(path)] returns no error *)
  exists_ : string → bool;
  (** the answer of [promptYesNo] *)
  promptYesNo : string → bool → bool;
  (** the result of the wizard, [runInteractiveInit] *)
  runInteractiveInit : Options → config.Config + string;
  (** the error of [writeConfig], if any *)
  writeConfig : config.Config → string → option string
}.

(** [Run] executes the config initialization: the events, and the error
    returned, if any. *)
Definition Run (w : World) (opts : option Options)
    : list Event * option string :=
  let opts := default DefaultOptions opts in
  let outputPath :=
    if (OutputPath opts =? "")%string then ConfigPath w else OutputPath opts in
  let write (before : list Event) : list Event * option string :=
    let built :=
      if NonInteractive opts then ([], inl (buildConfigFromOptions opts))
      else ([Interactive], runInteractiveInit w opts) in
    match built.2 with
    | inr err => ((before ++ built.1)%list, Some err)
    | inl cfg =>
        match writeConfig w cfg outputPath with
        | Some err =>
            ((before ++ built.1 ++ [WriteConfig cfg outputPath])%list,
             Some ("failed to write config: " +:+ err))
        | None =>
            ((before ++ built.1 ++
              [WriteConfig cfg outputPath;
               PrintSuccess ("Config file created at " +:+ outputPath)])%list,
             None)
        end
    end in
  if exists_ w outputPath && negb (Force opts) then
    if NonInteractive opts then
      ([], Some ("config file already exists at " +:+ outputPath
                 +:+ " (use --force to overwrite)"))
    else
      let asked :=
        [PrintWarning ("Config file already exists at " +:+ outputPath);
         AskYesNo "Do you want to overwrite it?" false] in
      if negb (promptYesNo w "Do you want to overwrite it?" false) then
        ((asked ++ [PrintSublog "Initialization cancelled"])%list, None)
      else write asked
  else write [].

End initpkg.

(** ** The [init] command of [main] *)

Module cli.

(** [parseCommaSeparated] of [main], the same as the one of [pkg/init]. *)
Fixpoint collectParts `{UnicodeSpace} (result parts : list string)
    : list string :=
  match parts with
  | [] => result
  | p :: rest =>
      let p := gostrings.TrimSpace p in
      if negb (p =? "")%string
      then collectParts (result ++ [p])%list rest
      else collectParts result rest
  end.

Definition parseCommaSeparated `{UnicodeSpace} (input : string) : list string :=
  collectParts [] (gostrings.SplitByte input ","%char).

(** How the flag loop of [handleInit] ends. *)
Inductive Parsed :=
| Help
| UnknownFlag (flag : string)
| Options (opts : initpkg.Options).

Section HandleInit.
Context `{UnicodeSpace}.

(** The flag loop of [handleInit]: [args] is [args[i:]]. A flag that takes
    a value and stands last is passed over. *)
Fixpoint parseFlags (opts : initpkg.Options) (args : list string) : Parsed :=
  match args with
  | [] => Options opts
  | arg :: rest =>
      if (arg =? "--help")%string || (arg =? "-h")%string then Help
      else if (arg =? "--non-interactive")%string || (arg =? "-n")%string then
        parseFlags
          (initpkg.mkOptions true (initpkg.Force opts)
             (initpkg.ProdPatterns opts) (initpkg.StagingPatterns opts)
             (initpkg.DevPatterns opts) (initpkg.ProdActions opts)
             (initpkg.StagingActions opts) (initpkg.BlockedActions opts)
             (initpkg.OutputPath opts)) rest
      else if (arg =? "--force")%string || (arg =? "-f")%string then
        parseFlags
          (initpkg.mkOptions (initpkg.NonInteractive opts) true
             (initpkg.ProdPatterns opts) (initpkg.StagingPatterns opts)
             (initpkg.DevPatterns opts) (initpkg.ProdActions opts)
             (initpkg.StagingActions opts) (initpkg.BlockedActions opts)
             (initpkg.OutputPath opts)) rest
      else if (arg =? "--output")%string || (arg =? "-o")%string then
        match rest with
        | value :: rest' =>
            parseFlags
              (initpkg.mkOptions (initpkg.NonInteractive opts)
                 (initpkg.Force opts)
                 (initpkg.ProdPatterns opts) (initpkg.StagingPatterns opts)
                 (initpkg.DevPatterns opts) (initpkg.ProdActions opts)
                 (initpkg.StagingActions opts) (initpkg.BlockedActions opts)
                 value) rest'
        | [] => Options opts
        end
      else if (arg =? "--prod-patterns")%string then
        match rest with
        | value :: rest' =>
            parseFlags
              (initpkg.mkOptions (initpkg.NonInteractive opts)
                 (initpkg.Force opts)
                 (parseCommaSeparated value) (initpkg.StagingPatterns opts)
                 (initpkg.DevPatterns opts) (initpkg.ProdActions opts)
                 (initpkg.StagingActions opts) (initpkg.BlockedActions opts)
                 (initpkg.OutputPath opts)) rest'
        | [] => Options opts
        end
      else if (arg =? "--staging-patterns")%string then
        match rest with
        | value :: rest' =>
            parseFlags
              (initpkg.mkOptions (initpkg.NonInteractive opts)
                 (initpkg.Force opts)
                 (initpkg.ProdPatterns opts) (parseCommaSeparated value)
                 (initpkg.DevPatterns opts) (initpkg.ProdActions opts)
                 (initpkg.StagingActions opts) (initpkg.BlockedActions opts)
                 (initpkg.OutputPath opts)) rest'
        | [] => Options opts
        end
      else if (arg =? "--dev-patterns")%string then
        match rest with
        | value :: rest' =>
            parseFlags
              (initpkg.mkOptions (initpkg.NonInteractive opts)
                 (initpkg.Force opts)
                 (initpkg.ProdPatterns opts) (initpkg.StagingPatterns opts)
                 (parseCommaSeparated value) (initpkg.ProdActions opts)
                 (initpkg.StagingActions opts) (initpkg.BlockedActions opts)
                 (initpkg.OutputPath opts)) rest'
        | [] => Options opts
        end
      else if (arg =? "--prod-actions")%string then
        match rest with
        | value :: rest' =>
            parseFlags
              (initpkg.mkOptions (initpkg.NonInteractive opts)
                 (initpkg.Force opts)
                 (initpkg.ProdPatterns opts) (initpkg.StagingPatterns opts)
                 (initpkg.DevPatterns opts) (parseCommaSeparated value)
                 (initpkg.StagingActions opts) (initpkg.BlockedActions opts)
                 (initpkg.OutputPath opts)) rest'
        | [] => Options opts
        end
      else if (arg =? "--staging-actions")%string then
        match rest with
        | value :: rest' =>
            parseFlags
              (initpkg.mkOptions (initpkg.NonInteractive opts)
                 (initpkg.Force opts)
                 (initpkg.ProdPatterns opts) (initpkg.StagingPatterns opts)
                 (initpkg.DevPatterns opts) (initpkg.ProdActions opts)
                 (parseCommaSeparated value) (initpkg.BlockedActions opts)
                 (initpkg.OutputPath opts)) rest'
        | [] => Options opts
        end
      else if (arg =? "--blocked-actions")%string then
        match rest with
        | value :: rest' =>
            parseFlags
              (initpkg.mkOptions (initpkg.NonInteractive opts)
                 (initpkg.Force opts)
                 (initpkg.ProdPatterns opts) (initpkg.StagingPatterns opts)
                 (initpkg.DevPatterns opts) (initpkg.ProdActions opts)
                 (initpkg.StagingActions opts) (parseCommaSeparated value)
                 (initpkg.OutputPath opts)) rest'
        | [] => Options opts
        end
      else if strings.HasPrefix arg "-" then UnknownFlag arg
      else parseFlags opts rest
  end.

(** What [handleInit] does to the outside world. *)
Inductive Event :=
| PrintInitUsage
| PrintError (message : string)
| Init (event : initpkg.Event).

(** [handleInit]: the events and the exit status of the process. *)
Definition handleInit (w : initpkg.World) (args : list string)
    : list Event * Z :=
  match parseFlags initpkg.DefaultOptions args with
  | Help => ([PrintInitUsage], 0%Z)
  | UnknownFlag flag =>
      ([PrintError ("Unknown flag: " +:+ flag); PrintInitUsage], 1%Z)
  | Options opts =>
      match initpkg.Run w (Some opts) with
      | (events, Some err) => ((Init <$> events) ++ [PrintError err], 1%Z)%list
      | (events, None) => (Init <$> events, 0%Z)
      end
  end.

End HandleInit.

End cli.

(** ** Reference instances of the two capabilities

    Used to run the program on concrete inputs. *)

Module Reference.

(** The Unicode path left as the identity: the examples lower ASCII only. *)
Definition asciiOnly : Unicode := {| unicode_ToLower_Map := fun s => s |}.

(** [*] matches any run of bytes, every other byte matches itself. *)
Fixpoint starMatch (pattern : string) : string → bool :=
  match pattern with
  | EmptyString => fun str => (str =? "")%string
  | String c pattern' =>
      if (c =? "*")%char then
        fix skip (str : string) : bool :=
          starMatch pattern' str ||
          match str with
          | EmptyString => false
          | String _ str' => skip str'
          end
      else
        fun str =>
          match str with
          | EmptyString => false
          | String d str' => (c =? d)%char && starMatch pattern' str'
          end
  end.

(** A pattern that opens a character class. Classes are outside this
    matcher: both entry points report such a pattern as an error, which is
    what the two libraries do with a class that is never closed, such as
    [prod[1]: [glob.Compile] returns an error, and [filepath.Match] returns
    [false] together with [ErrBadPattern]. *)
Definition opensClass (pattern : string) : bool := strings.Contains pattern "[".

Definition starGlob : PatternLib :=
  {| Glob := string;
     glob_Compile := fun pattern =>
       if opensClass pattern then None else Some pattern;
     glob_Match := starMatch;
     filepath_Match := fun pattern name =>
       if opensClass pattern then (false, true)
       else (starMatch pattern name, false) |}.

(** White space outside ASCII left alone: the examples hold ASCII only. *)
Definition asciiSpaces : UnicodeSpace := {| unicode_TrimSpace := fun s => s |}.

(** A world in which kubectl is present, no configuration file exists, the
    current context is [context], the user declines at the prompt and the
    maps are visited in the order of [map_to_list]. *)
Definition world (context : string) : main.World :=
  {| main.execName := "kctl";
     main.initStatus := fun _ => 0%Z;
     main.CheckKubectlAvailable := true;
     main.Load := inr {| main.loadMessage := "no such file"; main.isNotExist := true |};
     main.GetCurrentContext := inl context;
     main.GetNamespace := fun _ => "default";
     main.confirmed := fun _ => false;
     main.exitCode := fun _ => 0%Z;
     main.clusterOrder := map_to_list;
     main.tierOrder := map_to_list |}.

(** A world for [init] in which every file exists, prompts are answered by
    their default, there is no terminal for the wizard and writing
    succeeds. *)
Definition initWorld : initpkg.World :=
  {| initpkg.ConfigPath := "/home/user/.config/kubectl-enhanced/config.yaml";
     initpkg.exists_ := fun _ => true;
     initpkg.promptYesNo := fun _ defaultYes => defaultYes;
     initpkg.runInteractiveInit := fun _ => inr "no terminal";
     initpkg.writeConfig := fun _ _ => None |}.

(** The configuration of [TestGetClusterRules_Priority]. *)
Definition priorityConfig : config.Config :=
  {| config.Defaults := config.DefaultsConfig.mk false [];
     config.Clusters :=
       list_to_map
         [("special-prod", config.ClusterRules.mk "special" ["scale"] ["delete"])];
     config.Tiers :=
       list_to_map
         [("production",
           config.TierConfig.mk ["*-prod"] ["delete"; "drain"] [])] |}.

(** The built-in tiers under defaults that require confirmation and block
    [exec], with one cluster pattern. *)
Definition strictConfig : config.Config :=
  {| config.Defaults := config.DefaultsConfig.mk true ["exec"];
     config.Clusters :=
       list_to_map
         [("*-prod-db", config.ClusterRules.mk "database" ["delete"] ["drain"])];
     config.Tiers := config.Tiers config.Default |}.

(** Two cluster patterns that both match [prod-east]. *)
Definition overlapEntries : list (string * config.ClusterRules.t) :=
  [("prod-*", config.ClusterRules.mk "production" ["delete"] []);
   ("*-east", config.ClusterRules.mk "regional" [] [])].

Definition overlapConfig : config.Config :=
  {| config.Defaults := config.DefaultsConfig.mk false [];
     config.Clusters := list_to_map overlapEntries;
     config.Tiers := ∅ |}.

(** One cluster pattern that matches [prod-east], over two tiers that both
    match it as well. *)
Definition shadowedConfig : config.Config :=
  {| config.Defaults := config.DefaultsConfig.mk false [];
     config.Clusters :=
       list_to_map
         [("prod-*", config.ClusterRules.mk "production" ["delete"] [])];
     config.Tiers :=
       list_to_map
         [("east", config.TierConfig.mk ["*-east"] [] []);
          ("edge", config.TierConfig.mk ["prod-*"] ["drain"] [])] |}.

End Reference.

(** ** Vocabulary of the specification *)

(** A run of arguments the scanner of [DetectAction] steps over: a
    [--flag=value] unit, a flag that takes no value, or a value-consuming
    flag together with the token that follows it. *)
Inductive flagUnits : list string → Prop :=
| flagUnits_nil : flagUnits []
| flagUnits_assigned (flag : string) (rest : list string) :
    strings.HasPrefix flag "--" = true →
    strings.Contains flag "=" = true →
    flagUnits rest → flagUnits (flag :: rest)
| flagUnits_switch (flag : string) (rest : list string) :
    strings.HasPrefix flag "-" = true →
    rbac.takesValue flag = false →
    flagUnits rest → flagUnits (flag :: rest)
| flagUnits_valued (flag value : string) (rest : list string) :
    rbac.takesValue flag = true →
    flagUnits rest → flagUnits (flag :: value :: rest).

(** An argument vector with no non-flag token: flag units, possibly followed
    by a value-consuming flag whose value is missing. *)
Definition onlyFlags (args : list string) : Prop :=
  ∃ units, flagUnits units ∧
    (args = units ∨
     ∃ flag, rbac.takesValue flag = true ∧ args = (units ++ [flag])%list).

(** The destructive verbs, and the action tag of each. *)
Definition destructiveVerbs : list string :=
  ["delete"; "drain"; "cordon"; "uncordon"; "scale"; "edit"; "patch";
   "apply"; "create"; "exec"; "rollout"].

Definition canonical (verb : string) : string :=
  if (verb =? "uncordon")%string then "cordon" else verb.

(** The tokens the extraction loop drops. *)
Definition isYes (arg : string) : bool :=
  (arg =? "--yes")%string || (arg =? "-y")%string.

(** An entry of [clusters] whose key glob-matches the context. *)
Definition clusterMatches `{PatternLib} (c : config.Config)
    (context pattern : string) (rules : config.ClusterRules.t) : Prop :=
  config.Clusters c !! pattern = Some rules ∧
  config.matchGlob pattern context = true.

(** A tier one of whose patterns glob-matches the context. *)
Definition tierMatches `{PatternLib} (c : config.Config)
    (context tierName : string) (tier : config.TierConfig.t) : Prop :=
  config.Tiers c !! tierName = Some tier ∧
  ∃ pattern, pattern ∈ config.TierConfig.Patterns tier ∧
             config.matchGlob pattern context = true.

(** The world [w], with another answer of [config.Load]. *)
Definition withLoad (w : main.World) (l : config.Config + main.LoadError)
    : main.World :=
  {| main.execName := main.execName w;
     main.initStatus := main.initStatus w;
     main.CheckKubectlAvailable := main.CheckKubectlAvailable w;
     main.Load := l;
     main.GetCurrentContext := main.GetCurrentContext w;
     main.GetNamespace := main.GetNamespace w;
     main.confirmed := main.confirmed w;
     main.exitCode := main.exitCode w;
     main.clusterOrder := main.clusterOrder w;
     main.tierOrder := main.tierOrder w |}.

(** The warning [main] prints about a configuration it could not read, and
    the configuration it goes on with. *)
Definition loadWarning (w : main.World) : list main.Event :=
  match main.Load w with
  | inl _ => []
  | inr err =>
      if negb (main.isNotExist err)
      then [main.PrintWarning
              ("Could not load config: " +:+ main.loadMessage err
                 +:+ " (using defaults)")]
      else []
  end.

Definition loadedConfig (w : main.World) : config.Config :=
  match main.Load w with
  | inl cfg => cfg
  | inr _ => config.Default
  end.

(** A token from which [GetNamespace] may read a namespace. *)
Definition namesNamespace (arg : string) : bool :=
  (arg =? "-n")%string || (arg =? "--namespace")%string ||
  strings.HasPrefix arg "-n=" || strings.HasPrefix arg "--namespace=".

(** What [GetNamespace] returns when the arguments name no namespace. *)
Definition contextNamespace `{UnicodeSpace} (view : string * Z) : string :=
  if (view.2 =? 0)%Z && negb (gostrings.TrimSpace view.1 =? "")%string
  then gostrings.TrimSpace view.1
  else "default".

(** The byte [b] occurs in [s]. *)
Fixpoint holdsByte (b : ascii) (s : string) : bool :=
  match s with
  | EmptyString => false
  | String c s' => (c =? b)%char || holdsByte b s'
  end.

(** A string that does not start with white space. *)
Definition startsClean (s : string) : bool :=
  match s with
  | EmptyString => true
  | String c _ => negb (gostrings.asciiSpace c)
  end.

(** An entry of a comma-separated list that [parseCommaSeparated] reads
    back as it is: ASCII, not empty, without a comma and without white space
    at either end. *)
Definition plainEntry (e : string) : Prop :=
  strings.isASCII e = true ∧ e ≠ "" ∧ holdsByte "," e = false ∧
  gostrings.trimRight (gostrings.trimLeft e) = e.

(** What the flag loop of [handleInit] reports comes from the arguments:
    help from a help flag, an unknown flag from a token that starts with
    [-], and the switches [Force] and [NonInteractive] from their flags,
    unless they were set before. *)
Definition reported (opts0 : initpkg.Options) (args : list string)
    (r : cli.Parsed) : Prop :=
  match r with
  | cli.Help => "--help" ∈ args ∨ "-h" ∈ args
  | cli.UnknownFlag flag => flag ∈ args ∧ strings.HasPrefix flag "-" = true
  | cli.Options opts =>
      (initpkg.Force opts = true →
       initpkg.Force opts0 = true ∨ "--force" ∈ args ∨ "-f" ∈ args) ∧
      (initpkg.NonInteractive opts = true →
       initpkg.NonInteractive opts0 = true ∨
       "--non-interactive" ∈ args ∨ "-n" ∈ args)
  end.

(** * Properties *)

(** Case analysis on the next string comparison of the goal. *)
Ltac case_eqb :=
  match goal with
  | |- context [String.eqb ?a ?b] =>
      destruct (String.eqb_spec a b); [subst; simpl | simpl]
  end.

(** Membership in an explicit list, by cases. *)
Ltac by_cases_on_list :=
  rewrite ?elem_of_cons, ?elem_of_nil in *; intuition (discriminate || congruence).

(** ** Presentation metadata *)

(** C10: [GetActionSeverity] returns one of "high", "medium", "low" and
    "none": "high" exactly for delete and drain, "medium" exactly for scale,
    cordon, edit, patch and rollout, "low" exactly for apply and create, and
    "none" for every other string, such as "unknown" and "get";
    [DescribeAction] returns its argument unchanged outside the ten action
    tags. *)
Theorem severity_and_description_classes (action : string) :
  (rbac.GetActionSeverity action = "high" ↔
     action = "delete" ∨ action = "drain") ∧
  (rbac.GetActionSeverity action = "medium" ↔
     action = "scale" ∨ action = "cordon" ∨ action = "edit" ∨
     action = "patch" ∨ action = "rollout") ∧
  (rbac.GetActionSeverity action = "low" ↔
     action = "apply" ∨ action = "create") ∧
  (rbac.GetActionSeverity action = "none" ↔
     action ∉ ["delete"; "drain"; "scale"; "cordon"; "edit"; "patch";
               "rollout"; "apply"; "create"]) ∧
  rbac.GetActionSeverity action ∈ ["high"; "medium"; "low"; "none"] ∧
  rbac.GetActionSeverity "unknown" = "none" ∧
  rbac.GetActionSeverity "get" = "none" ∧
  (action ∉ ["delete"; "drain"; "cordon"; "scale"; "edit"; "patch"; "apply";
             "create"; "exec"; "rollout"] →
   rbac.DescribeAction action = action).
Proof.
  split_and!; try reflexivity.
  1-4: unfold rbac.GetActionSeverity, rbac.ActionDelete, rbac.ActionDrain,
         rbac.ActionScale, rbac.ActionCordon, rbac.ActionEdit,
         rbac.ActionPatch, rbac.ActionRollout, rbac.ActionApply,
         rbac.ActionCreate;
       repeat case_eqb;
       (split; intros E; by_cases_on_list).
  - unfold rbac.GetActionSeverity.
    repeat match goal with
           | |- context [if ?b then _ else _] => destruct b
           end; by_cases_on_list.
  - intros Hout. unfold rbac.DescribeAction, rbac.ActionDelete,
      rbac.ActionDrain, rbac.ActionCordon, rbac.ActionScale, rbac.ActionEdit,
      rbac.ActionPatch, rbac.ActionApply, rbac.ActionCreate, rbac.ActionExec,
      rbac.ActionRollout.
    repeat case_eqb; by_cases_on_list.
Qed.

(** ** Rule matching *)

Section RuleMatching.
Context `{Unicode}.

(** On an ASCII-only string [ToLower] lowers byte by byte. *)
Lemma lowerBytes_no_upper (s : string) :
  strings.hasUpper s = false → strings.lowerBytes s = s.
Proof.
  induction s as [|c s IH]; simpl; [reflexivity|].
  intros [Hc Hs]%orb_false_iff.
  unfold strings.lowerByte. rewrite Hc, IH; auto.
Qed.

Lemma ToLower_ascii (s : string) :
  strings.isASCII s = true → strings.ToLower s = strings.lowerBytes s.
Proof.
  intros Hs. unfold strings.ToLower. rewrite Hs.
  destruct (strings.hasUpper s) eqn:Hu; [reflexivity|].
  symmetry. apply lowerBytes_no_upper, Hu.
Qed.

(** The loop of [IsBlocked] and [RequiresConfirmation] finds a rule that
    matches, if there is one. *)
Lemma anyMatch_true (action : string) (rules : list string) :
  rbac.anyMatch action rules = true ↔
  ∃ rule, rule ∈ rules ∧ rbac.matchAction rule action = true.
Proof.
  induction rules as [|rule rest IH]; simpl.
  - split; [discriminate|]. intros (r & Hr & _). inversion Hr.
  - destruct (rbac.matchAction rule action) eqn:Hm.
    + split; [|reflexivity]. intros _. exists rule. split; [left|assumption].
    + rewrite IH. split.
      * intros (r & Hr & Hrm). exists r. split; [right|]; assumption.
      * intros (r & Hr & Hrm). apply elem_of_cons in Hr as [->|Hr].
        -- congruence.
        -- exists r. split; assumption.
Qed.

(** What [matchAction] computes, on the lowered rule and action. *)
Lemma matchAction_spec (rule action : string) :
  rbac.matchAction rule action = true ↔
  strings.ToLower rule = strings.ToLower action ∨
  (strings.ToLower rule = "drain" ∧ strings.ToLower action = "cordon") ∨
  (strings.ToLower rule = "edit" ∧ strings.ToLower action = "patch") ∨
  (strings.ToLower rule = "apply" ∧ strings.ToLower action = "create").
Proof.
  unfold rbac.matchAction.
  generalize (strings.ToLower rule) (strings.ToLower action). intros r a.
  unfold rbac.ActionDelete, rbac.ActionDrain, rbac.ActionCordon,
    rbac.ActionScale, rbac.ActionEdit, rbac.ActionPatch, rbac.ActionApply,
    rbac.ActionCreate, rbac.ActionExec, rbac.ActionRollout.
  destruct (String.eqb_spec r a) as [->|Hne]; [intuition|].
  repeat case_eqb;
    (split; [intros E; try discriminate E; intuition
            |intros E; intuition (discriminate || congruence)]).
Qed.

(** C4: matching a rule token against an action is case-insensitive (it
    sees both only through [strings.ToLower]) and expands exactly three
    aliases: "drain" also matches cordon, "edit" also matches patch,
    "apply" also matches create; every other rule token, "delete", "scale",
    "exec" and "rollout" among them, matches by equality of the lowered
    strings only. [IsBlocked] and [RequiresConfirmation] hold exactly when
    some token of their list matches. *)
Theorem matchAction_case_insensitive_aliases
    (rule action : string) (rules : config.ResolvedRules.t) :
  (rbac.matchAction rule action = true ↔
     strings.ToLower rule = strings.ToLower action ∨
     (strings.ToLower rule = "drain" ∧ strings.ToLower action = "cordon") ∨
     (strings.ToLower rule = "edit" ∧ strings.ToLower action = "patch") ∨
     (strings.ToLower rule = "apply" ∧ strings.ToLower action = "create")) ∧
  (∀ rule' action',
     strings.ToLower rule' = strings.ToLower rule →
     strings.ToLower action' = strings.ToLower action →
     rbac.matchAction rule' action' = rbac.matchAction rule action) ∧
  (strings.isASCII rule = true → strings.isASCII action = true →
   strings.lowerBytes rule = strings.lowerBytes action →
   rbac.matchAction rule action = true) ∧
  (strings.ToLower rule ∉ ["drain"; "edit"; "apply"] →
   rbac.matchAction rule action =
     (strings.ToLower rule =? strings.ToLower action)%string) ∧
  (rbac.IsBlocked action rules = true ↔
     ∃ token, token ∈ config.ResolvedRules.BlockedActions rules ∧
              rbac.matchAction token action = true) ∧
  (rbac.RequiresConfirmation action rules = true ↔
     ∃ token, token ∈ config.ResolvedRules.RequireConfirmation rules ∧
              rbac.matchAction token action = true).
Proof.
  split_and!.
  - apply matchAction_spec.
  - intros rule' action' Hr Ha. unfold rbac.matchAction. rewrite Hr, Ha.
    reflexivity.
  - intros Hr Ha Hl. apply matchAction_spec. left.
    rewrite !ToLower_ascii by assumption. exact Hl.
  - intros Hout.
    destruct (String.eqb_spec (strings.ToLower rule) (strings.ToLower action))
      as [Heq|Hne].
    + apply matchAction_spec. left. exact Heq.
    + apply not_true_is_false. intros Hm%matchAction_spec.
      revert Hout. by_cases_on_list.
  - apply anyMatch_true.
  - apply anyMatch_true.
Qed.

End RuleMatching.

(** The alias and case examples of the specification. *)
Example matchAction_examples :
  let U := Reference.asciiOnly in
  rbac.RequiresConfirmation "cordon" (config.ResolvedRules.mk "t" ["drain"] []) = true ∧
  rbac.RequiresConfirmation "create" (config.ResolvedRules.mk "t" ["apply"] []) = true ∧
  rbac.IsBlocked "DELETE" (config.ResolvedRules.mk "t" [] ["delete"]) = true ∧
  rbac.matchAction "cordon" "drain" = false ∧
  rbac.matchAction "delete" "get" = false.
Proof. vm_compute. repeat split. Qed.

(** ** Action classification *)

(** The keys of [flagsWithValues] are flags, and none holds an [=]. *)
Lemma takesValue_flag (flag : string) :
  rbac.takesValue flag = true →
  strings.HasPrefix flag "-" = true ∧ strings.Contains flag "=" = false.
Proof.
  unfold rbac.takesValue.
  destruct (rbac.flagsWithValues !! flag) as [b|] eqn:Hlk; [|discriminate].
  simpl. intros ->.
  apply elem_of_list_to_map_2 in Hlk.
  repeat (apply elem_of_cons in Hlk as [[= ->]|Hlk]; [split; reflexivity|]).
  inversion Hlk.
Qed.

(** One turn of the loop of [DetectAction]. *)
Lemma DetectAction_loop_cons (arg : string) (rest : list string) :
  rbac.DetectAction_loop false (arg :: rest) =
  if strings.HasPrefix arg "--" && strings.Contains arg "="
  then rbac.DetectAction_loop false rest
  else if strings.HasPrefix arg "-"
  then if rbac.takesValue arg then rbac.DetectAction_loop true rest
       else rbac.DetectAction_loop false rest
  else default arg (rbac.DestructiveActions !! arg).
Proof.
  cbn [rbac.DetectAction_loop].
  destruct (rbac.DestructiveActions !! arg); reflexivity.
Qed.

Lemma DetectAction_loop_skip (value : string) (rest : list string) :
  rbac.DetectAction_loop true (value :: rest) = rbac.DetectAction_loop false rest.
Proof. reflexivity. Qed.

(** A token with the prefix [--] has the prefix [-]. *)
Lemma HasPrefix_dashes (token : string) :
  strings.HasPrefix token "--" = true → strings.HasPrefix token "-" = true.
Proof.
  unfold strings.HasPrefix. destruct token as [|c token]; cbn [String.prefix].
  - discriminate.
  - destruct (Ascii.ascii_dec "-" c); [|discriminate].
    intros _. destruct token; reflexivity.
Qed.

(** The scanner steps over flag units. *)
Lemma DetectAction_loop_flagUnits (units rest : list string) :
  flagUnits units →
  rbac.DetectAction_loop false (units ++ rest) = rbac.DetectAction_loop false rest.
Proof.
  induction 1 as [|flag tl Hp He _ IH|flag tl Hp Hv _ IH|flag value tl Hv _ IH];
    rewrite <- ?app_comm_cons.
  - reflexivity.
  - rewrite DetectAction_loop_cons, Hp, He. exact IH.
  - rewrite DetectAction_loop_cons, Hp, Hv.
    destruct (strings.HasPrefix flag "--" && strings.Contains flag "="); exact IH.
  - destruct (takesValue_flag flag Hv) as [Hp He].
    rewrite DetectAction_loop_cons, Hp, He, Hv, andb_false_r.
    rewrite DetectAction_loop_skip. exact IH.
Qed.

(** On a non-empty vector [DetectAction] is its loop. *)
Lemma DetectAction_nonempty (units rest : list string) (token : string) :
  rbac.DetectAction (units ++ token :: rest) =
  rbac.DetectAction_loop false (units ++ token :: rest).
Proof. destruct units; reflexivity. Qed.

(** The first non-flag token decides: its entry in [DestructiveActions], or
    the token itself. *)
Lemma DetectAction_first_token (units rest : list string) (token : string) :
  flagUnits units →
  strings.HasPrefix token "-" = false →
  rbac.DetectAction (units ++ token :: rest) =
  default token (rbac.DestructiveActions !! token).
Proof.
  intros Hu Ht.
  rewrite DetectAction_nonempty, DetectAction_loop_flagUnits by exact Hu.
  rewrite DetectAction_loop_cons, Ht.
  destruct (strings.HasPrefix token "--") eqn:Hd; [|reflexivity].
  apply HasPrefix_dashes in Hd. congruence.
Qed.

(** A vector with no non-flag token runs the loop to its end. *)
Lemma DetectAction_loop_onlyFlags (args : list string) :
  onlyFlags args → rbac.DetectAction_loop false args = "unknown".
Proof.
  intros (units & Hu & [->|(flag & Hv & ->)]).
  - rewrite <- (app_nil_r units), DetectAction_loop_flagUnits by exact Hu.
    reflexivity.
  - rewrite DetectAction_loop_flagUnits by exact Hu.
    destruct (takesValue_flag flag Hv) as [Hp He].
    rewrite DetectAction_loop_cons, Hp, He, Hv, andb_false_r. reflexivity.
Qed.

(** C3: when the first non-flag token of the argument vector, after any
    number of [--flag=value] units, plain flags and value-consuming flags
    with their values, is one of the eleven destructive verbs, [DetectAction]
    returns its action tag: the verb itself, and cordon for uncordon. *)
Theorem DetectAction_destructive_verb
    (units rest : list string) (verb : string) :
  flagUnits units →
  verb ∈ destructiveVerbs →
  rbac.DetectAction (units ++ verb :: rest) = canonical verb.
Proof.
  intros Hu Hv. unfold destructiveVerbs in Hv.
  repeat (apply elem_of_cons in Hv as [->|Hv];
          [rewrite DetectAction_first_token by (exact Hu || reflexivity);
           vm_compute; reflexivity|]).
  inversion Hv.
Qed.

Lemma DetectAction_destructive_verb_witness :
  flagUnits ["-n"; "default"; "-l"; "app=test"; "--dry-run=client"; "--force"] ∧
  "uncordon" ∈ destructiveVerbs ∧
  rbac.DetectAction
    ["-n"; "default"; "-l"; "app=test"; "--dry-run=client"; "--force";
     "uncordon"; "node-1"] = "cordon".
Proof.
  assert (Hu : flagUnits
            ["-n"; "default"; "-l"; "app=test"; "--dry-run=client"; "--force"]).
  { apply flagUnits_valued; [vm_compute; reflexivity|].
    apply flagUnits_valued; [vm_compute; reflexivity|].
    apply flagUnits_assigned; [vm_compute; reflexivity..|].
    apply flagUnits_switch; [vm_compute; reflexivity..|].
    apply flagUnits_nil. }
  assert (Hv : "uncordon" ∈ destructiveVerbs).
  { unfold destructiveVerbs. rewrite !elem_of_cons. auto 6. }
  split; [exact Hu|]. split; [exact Hv|].
  exact (DetectAction_destructive_verb _ ["node-1"] "uncordon" Hu Hv).
Defined.

(** C8: an argument vector with no non-flag token (the empty vector, or
    flags and their values only) is classified "unknown"; and when the first
    non-flag token is not a destructive verb, [DetectAction] returns that
    token as it is. *)
Theorem DetectAction_unknown_or_passthrough :
  rbac.DetectAction [] = "unknown" ∧
  (∀ args, onlyFlags args → rbac.DetectAction args = "unknown") ∧
  (∀ units token rest,
     flagUnits units →
     strings.HasPrefix token "-" = false →
     token ∉ destructiveVerbs →
     rbac.DetectAction (units ++ token :: rest) = token).
Proof.
  split_and!.
  - reflexivity.
  - intros args Ho. destruct args as [|arg args]; [reflexivity|].
    apply (DetectAction_loop_onlyFlags _ Ho).
  - intros units token rest Hu Ht Hv.
    rewrite DetectAction_first_token by assumption.
    destruct (rbac.DestructiveActions !! token) as [action|] eqn:Hlk;
      [|reflexivity].
    exfalso. apply Hv. apply elem_of_list_to_map_2 in Hlk.
    unfold destructiveVerbs.
    repeat (apply elem_of_cons in Hlk as [[= -> _]|Hlk];
            [rewrite !elem_of_cons; auto 12|]).
    inversion Hlk.
Qed.

Lemma DetectAction_unknown_or_passthrough_witness :
  rbac.DetectAction ["-n"; "default"; "--force"; "--context"] = "unknown" ∧
  rbac.DetectAction ["-o"; "wide"; "get"; "pods"] = "get".
Proof.
  destruct DetectAction_unknown_or_passthrough as (_ & Hunknown & Hpass).
  split.
  - apply Hunknown. exists ["-n"; "default"; "--force"]. split.
    + apply flagUnits_valued; [vm_compute; reflexivity|].
      apply flagUnits_switch; [vm_compute; reflexivity..|].
      apply flagUnits_nil.
    + right. exists "--context". split; [vm_compute|]; reflexivity.
  - apply (Hpass ["-o"; "wide"] "get" ["pods"]).
    + apply flagUnits_valued; [vm_compute; reflexivity|]. apply flagUnits_nil.
    + reflexivity.
    + unfold destructiveVerbs. rewrite !elem_of_cons, elem_of_nil.
      intuition discriminate.
Defined.

(** The classification examples of the specification and of the tests. *)
Example DetectAction_flags_then_delete :
  rbac.DetectAction ["-n"; "default"; "-l"; "app=test"; "delete"; "pods"] = "delete".
Proof. vm_compute. reflexivity. Qed.

Example DetectAction_examples :
  rbac.DetectAction ["drain"; "node-1"; "--ignore-daemonsets"] = "drain" ∧
  rbac.DetectAction ["uncordon"; "node-1"] = "cordon" ∧
  rbac.DetectAction ["exec"; "-it"; "pod-name"; "--"; "bash"] = "exec" ∧
  rbac.DetectAction ["logs"; "-f"; "pod-name"] = "logs" ∧
  rbac.DetectAction ["-n"; "default"] = "unknown".
Proof. vm_compute. repeat split. Qed.

(** ** The guarded part of [main] *)

(** The extraction loop, in closed form. *)
Lemma extractYes_spec (hasYesFlag : bool) (filteredArgs args : list string) :
  main.extractYes hasYesFlag filteredArgs args =
  (hasYesFlag || existsb isYes args,
   (filteredArgs ++ List.filter (λ arg, negb (isYes arg)) args)%list).
Proof.
  revert hasYesFlag filteredArgs.
  induction args as [|arg rest IH]; intros hasYesFlag filteredArgs.
  - simpl. rewrite orb_false_r, app_nil_r. reflexivity.
  - cbn [main.extractYes existsb List.filter]. fold (isYes arg).
    destruct (isYes arg); rewrite IH; cbn [negb].
    + rewrite orb_true_r. reflexivity.
    + rewrite <- app_assoc. reflexivity.
Qed.

Lemma existsb_isYes (args : list string) :
  existsb isYes args = true ↔ "--yes" ∈ args ∨ "-y" ∈ args.
Proof.
  rewrite existsb_exists. unfold isYes. split.
  - intros (arg & Hin & Hyes). apply list_elem_of_In in Hin.
    apply orb_true_iff in Hyes as [Hyes|Hyes];
      apply String.eqb_eq in Hyes; subst arg; auto.
  - intros [Hin|Hin]; apply list_elem_of_In in Hin; eauto.
Qed.

Section Guard.
Context `{Unicode} `{PatternLib}.

(** kubectl runs at most on the arguments [enforce] was given. *)
Lemma enforce_executes (w : main.World) (context : string)
    (args : list string) (hasYesFlag : bool) (action : string)
    (rules : config.ResolvedRules.t) (a : list string) :
  main.Execute a ∈ (main.enforce w context args hasYesFlag action rules).1 →
  a = args.
Proof.
  unfold main.enforce.
  repeat match goal with
         | |- context [if ?b then _ else _] => destruct b
         end; cbn [fst];
    rewrite ?elem_of_app, ?elem_of_cons, ?elem_of_nil;
    intuition (discriminate || congruence).
Qed.

(** [guarded] hands the filtered arguments to the classifier and to
    [enforce]. *)
Lemma guarded_unfold (w : main.World) (cfg : config.Config)
    (context : string) (args : list string) :
  main.guarded w cfg context args =
  main.enforce w context (main.extractYes false [] args).2
    (main.extractYes false [] args).1
    (rbac.DetectAction (main.extractYes false [] args).2)
    (config.GetClusterRules_in
       (main.clusterOrder w (config.Clusters cfg))
       (main.tierOrder w (config.Tiers cfg)) cfg context).
Proof.
  unfold main.guarded. destruct (main.extractYes false [] args). reflexivity.
Qed.

(** Whatever [main] runs kubectl on is the filtered argument vector. *)
Lemma main_executes (w : main.World) (args a : list string) :
  main.Execute a ∈ (main.main w args).1 →
  a = (main.extractYes false [] args).2.
Proof.
  unfold main.main. destruct args as [|arg0 rest].
  { cbn [fst]. by_cases_on_list. }
  set (args := arg0 :: rest).
  destruct (_ || _); [cbn [fst]; by_cases_on_list|].
  destruct (_ || _); [cbn [fst]; by_cases_on_list|].
  destruct (_ =? _)%string; [cbn [fst]; by_cases_on_list|].
  destruct (_ =? _)%string; [cbn [fst]; by_cases_on_list|].
  destruct (negb _); [cbn [fst]; by_cases_on_list|].
  assert (Hwarn : ∀ err : main.LoadError,
            main.Execute a ∉
              (if negb (main.isNotExist err)
               then [main.PrintWarning
                       ("Could not load config: " +:+ main.loadMessage err
                          +:+ " (using defaults)")]
               else [])).
  { intros err. destruct (negb _); by_cases_on_list. }
  destruct (main.Load w) as [cfg|err];
    (destruct (main.GetCurrentContext w) as [context|msg];
     [ rewrite guarded_unfold;
       destruct (main.enforce _ _ _ _ _ _) as [events status] eqn:He;
       cbn [fst]; rewrite elem_of_app; intros [Hin|Hin];
       [ try (exfalso; revert Hin; apply Hwarn); try by_cases_on_list
       | eapply enforce_executes; rewrite He; exact Hin ]
     | cbn [fst]; rewrite elem_of_app; intros [Hin|Hin];
       [ try (exfalso; revert Hin; apply Hwarn); try by_cases_on_list
       | by_cases_on_list ] ]).
Qed.

(** In a world whose orders of visit are orders Go may choose, the rules
    [guarded] enforces are rules [GetClusterRules] may return. *)
Lemma guarded_rules_resolved (w : main.World) (cfg : config.Config)
    (context : string) :
  main.wellOrdered w →
  config.GetClusterRules cfg context
    (config.GetClusterRules_in
       (main.clusterOrder w (config.Clusters cfg))
       (main.tierOrder w (config.Tiers cfg)) cfg context).
Proof.
  intros [Hc Ht]. eexists _, _. split_and!; [apply Hc|apply Ht|reflexivity].
Qed.

(** C9: the extraction loop removes every token "--yes" and "-y" from the
    argument vector, wherever it stands, and keeps the other tokens in
    their order; the skip flag is set exactly when such a token occurred;
    classification and kubectl see the remaining tokens only. *)
Theorem yes_flags_removed (w : main.World) (cfg : config.Config)
    (context : string) (args : list string) :
  let hasYesFlag := (main.extractYes false [] args).1 in
  let filteredArgs := (main.extractYes false [] args).2 in
  filteredArgs = List.filter (λ arg, negb (isYes arg)) args ∧
  (hasYesFlag = true ↔ "--yes" ∈ args ∨ "-y" ∈ args) ∧
  ("--yes" ∉ filteredArgs) ∧ ("-y" ∉ filteredArgs) ∧
  main.guarded w cfg context args =
    main.enforce w context filteredArgs hasYesFlag
      (rbac.DetectAction filteredArgs)
      (config.GetClusterRules_in
         (main.clusterOrder w (config.Clusters cfg))
         (main.tierOrder w (config.Tiers cfg)) cfg context) ∧
  (∀ a, main.Execute a ∈ (main.main w args).1 → a = filteredArgs).
Proof.
  cbn zeta. split_and!.
  - rewrite extractYes_spec. reflexivity.
  - rewrite extractYes_spec. apply existsb_isYes.
  - rewrite extractYes_spec. cbn [snd app].
    rewrite list_elem_of_In, filter_In. intros [_ Hn]. discriminate Hn.
  - rewrite extractYes_spec. cbn [snd app].
    rewrite list_elem_of_In, filter_In. intros [_ Hn]. discriminate Hn.
  - apply guarded_unfold.
  - intros a. apply main_executes.
Qed.

(** C1: when the action matches a token of the blocked list, the outcome
    is the block message and exit status 1, and kubectl does not run,
    whatever the confirmation list holds and whether or not the skip flag
    was given; on an action that is not blocked, the skip flag does away
    with the confirmation prompt only. *)
Theorem blocked_before_confirmation (w : main.World) (context : string)
    (args : list string) (hasYesFlag : bool) (action : string)
    (rules : config.ResolvedRules.t) :
  (∃ token, token ∈ config.ResolvedRules.BlockedActions rules ∧
            rbac.matchAction token action = true) →
  rbac.IsBlocked action rules = true ∧
  main.enforce w context args hasYesFlag action rules =
    ([main.PrintBlocked action context
        ("Action '" +:+ action +:+ "' is configured as blocked for tier '"
           +:+ config.ResolvedRules.Tier rules +:+ "'")], 1%Z) ∧
  (∀ a, main.Execute a ∉
          (main.enforce w context args hasYesFlag action rules).1) ∧
  (∀ confirm,
     let rules' :=
       config.ResolvedRules.mk (config.ResolvedRules.Tier rules) confirm
         (config.ResolvedRules.BlockedActions rules) in
     main.enforce w context args hasYesFlag action rules' =
     main.enforce w context args hasYesFlag action rules).
Proof.
  intros Hblocked.
  assert (Hb : rbac.IsBlocked action rules = true)
    by (apply anyMatch_true; exact Hblocked).
  assert (He : main.enforce w context args hasYesFlag action rules =
    ([main.PrintBlocked action context
        ("Action '" +:+ action +:+ "' is configured as blocked for tier '"
           +:+ config.ResolvedRules.Tier rules +:+ "'")], 1%Z))
    by (unfold main.enforce; rewrite Hb; reflexivity).
  split_and!.
  - exact Hb.
  - exact He.
  - intros a. rewrite He. cbn [fst]. by_cases_on_list.
  - intros confirm. cbn zeta. rewrite He. unfold main.enforce.
    unfold rbac.IsBlocked in *. cbn [config.ResolvedRules.BlockedActions
      config.ResolvedRules.Tier]. rewrite Hb. reflexivity.
Qed.

(** On an action that is not blocked the skip flag removes the prompt and
    nothing else: kubectl runs on the arguments. *)
Lemma skip_flag_skips_confirmation (w : main.World) (context : string)
    (args : list string) (action : string) (rules : config.ResolvedRules.t) :
  rbac.IsBlocked action rules = false →
  main.enforce w context args true action rules =
    ([main.Execute args], main.exitCode w args).
Proof.
  intros Hb. unfold main.enforce. rewrite Hb, andb_false_r. reflexivity.
Qed.

End Guard.

Lemma blocked_before_confirmation_witness :
  let rules := config.ResolvedRules.mk "production" ["delete"; "drain"] ["delete"] in
  let w := Reference.world "prod-us-east-1" in
  @rbac.RequiresConfirmation Reference.asciiOnly "delete" rules = true ∧
  @main.enforce Reference.asciiOnly w "prod-us-east-1" ["delete"; "pod"; "foo"]
    true "delete" rules =
    ([main.PrintBlocked "delete" "prod-us-east-1"
        "Action 'delete' is configured as blocked for tier 'production'"], 1%Z).
Proof.
  split; [reflexivity|].
  refine (proj1 (proj2 (@blocked_before_confirmation Reference.asciiOnly
            (Reference.world "prod-us-east-1") "prod-us-east-1"
            ["delete"; "pod"; "foo"] true "delete"
            (config.ResolvedRules.mk "production" ["delete"; "drain"] ["delete"])
            _))).
  exists "delete". split; [left|reflexivity].
Defined.

(** [-y] is dropped even where it stands for the value of [-n]: the verb
    then takes its place as the value, and nothing is classified. *)
Example yes_as_flag_value :
  main.extractYes false [] ["-n"; "-y"; "delete"; "pod"] =
    (true, ["-n"; "delete"; "pod"]) ∧
  rbac.DetectAction ["-n"; "delete"; "pod"] = "pod".
Proof. vm_compute. split; reflexivity. Qed.

(** ** Resolution of the rules of a context *)

(** The entries of a map are what every order of visit holds. *)
Lemma range_order_lookup {V} (m : gmap string V) (l : list (string * V))
    (k : string) (v : V) :
  config.range_order m l → ((k, v) ∈ l ↔ m !! k = Some v).
Proof.
  unfold config.range_order. intros Hp. rewrite Hp.
  apply elem_of_map_to_list.
Qed.

Lemma range_order_map_to_list {V} (m : gmap string V) :
  config.range_order m (map_to_list m).
Proof. unfold config.range_order. reflexivity. Qed.

(** An entry of a map may be the first one visited. *)
Lemma range_order_first {V} (m : gmap string V) (k : string) (v : V) :
  m !! k = Some v → config.range_order m ((k, v) :: map_to_list (delete k m)).
Proof. intros Hlk. unfold config.range_order. apply map_to_list_delete, Hlk. Qed.

Section ResolutionProperties.
Context `{PatternLib}.

Lemma rangeClusters_Some (context : string)
    (entries : list (string * config.ClusterRules.t))
    (r : config.ResolvedRules.t) :
  config.rangeClusters context entries = Some r →
  ∃ pattern rules, (pattern, rules) ∈ entries ∧
    config.matchGlob pattern context = true ∧ r = config.ofCluster rules.
Proof.
  induction entries as [|[pattern rules] rest IH]; simpl; [discriminate|].
  destruct (config.matchGlob pattern context) eqn:Hm.
  - intros [= <-]. exists pattern, rules. split; [left|auto].
  - intros (p & rs & Hin & Hr)%IH. exists p, rs. split; [right|]; assumption.
Qed.

Lemma rangeClusters_None (context : string)
    (entries : list (string * config.ClusterRules.t)) :
  config.rangeClusters context entries = None ↔
  ∀ pattern rules, (pattern, rules) ∈ entries →
    config.matchGlob pattern context = false.
Proof.
  induction entries as [|[pattern rules] rest IH]; simpl.
  - split; [|reflexivity]. intros _ p rs Hin. inversion Hin.
  - destruct (config.matchGlob pattern context) eqn:Hm.
    + split; [discriminate|]. intros Hall.
      rewrite (Hall pattern rules) in Hm by left. discriminate.
    + rewrite IH. split.
      * intros Hall p rs [[= -> ->]|Hin]%elem_of_cons; [exact Hm|eauto].
      * intros Hall p rs Hin. apply (Hall p rs). right. exact Hin.
Qed.

Lemma rangePatterns_Some (context tierName : string)
    (tier : config.TierConfig.t) (patterns : list string)
    (r : config.ResolvedRules.t) :
  config.rangePatterns context tierName tier patterns = Some r →
  r = config.ofTier tierName tier ∧
  ∃ pattern, pattern ∈ patterns ∧ config.matchGlob pattern context = true.
Proof.
  induction patterns as [|pattern rest IH]; simpl; [discriminate|].
  destruct (config.matchGlob pattern context) eqn:Hm.
  - intros [= <-]. split; [reflexivity|]. exists pattern. split; [left|auto].
  - intros [Hr (p & Hin & Hp)]%IH. split; [exact Hr|].
    exists p. split; [right|]; assumption.
Qed.

Lemma rangePatterns_None (context tierName : string)
    (tier : config.TierConfig.t) (patterns : list string) :
  config.rangePatterns context tierName tier patterns = None ↔
  ∀ pattern, pattern ∈ patterns → config.matchGlob pattern context = false.
Proof.
  induction patterns as [|pattern rest IH]; simpl.
  - split; [|reflexivity]. intros _ p Hin. inversion Hin.
  - destruct (config.matchGlob pattern context) eqn:Hm.
    + split; [discriminate|]. intros Hall.
      rewrite (Hall pattern) in Hm by left. discriminate.
    + rewrite IH. split.
      * intros Hall p [->|Hin]%elem_of_cons; [exact Hm|eauto].
      * intros Hall p Hin. apply Hall. right. exact Hin.
Qed.

(** The loop over the patterns of a tier stops at the first that matches. *)
Lemma rangePatterns_match (context tierName : string)
    (tier : config.TierConfig.t) (patterns : list string) :
  (∃ pattern, pattern ∈ patterns ∧ config.matchGlob pattern context = true) →
  config.rangePatterns context tierName tier patterns =
    Some (config.ofTier tierName tier).
Proof.
  intros (p & Hin & Hm).
  destruct (config.rangePatterns context tierName tier patterns) as [r|] eqn:Hr.
  - apply rangePatterns_Some in Hr as [-> _]. reflexivity.
  - rewrite (proj1 (rangePatterns_None _ _ _ _) Hr p Hin) in Hm. discriminate.
Qed.

Lemma rangeTiers_Some (context : string)
    (entries : list (string * config.TierConfig.t))
    (r : config.ResolvedRules.t) :
  config.rangeTiers context entries = Some r →
  ∃ tierName tier pattern, (tierName, tier) ∈ entries ∧
    pattern ∈ config.TierConfig.Patterns tier ∧
    config.matchGlob pattern context = true ∧
    r = config.ofTier tierName tier.
Proof.
  induction entries as [|[tierName tier] rest IH]; simpl; [discriminate|].
  destruct (config.rangePatterns context tierName tier _) as [r'|] eqn:Hp.
  - intros [= <-]. apply rangePatterns_Some in Hp as [-> (p & Hin & Hm)].
    exists tierName, tier, p. split; [left|auto].
  - intros (t & tr & p & Hin & Hrest)%IH. exists t, tr, p.
    split; [right|]; assumption.
Qed.

Lemma rangeTiers_None (context : string)
    (entries : list (string * config.TierConfig.t)) :
  config.rangeTiers context entries = None ↔
  ∀ tierName tier pattern, (tierName, tier) ∈ entries →
    pattern ∈ config.TierConfig.Patterns tier →
    config.matchGlob pattern context = false.
Proof.
  induction entries as [|[tierName tier] rest IH]; simpl.
  - split; [|reflexivity]. intros _ t tr p Hin. inversion Hin.
  - destruct (config.rangePatterns context tierName tier _) as [r'|] eqn:Hp.
    + split; [discriminate|]. intros Hall.
      apply rangePatterns_Some in Hp as [_ (p & Hin & Hm)].
      rewrite (Hall tierName tier p) in Hm by (left || assumption).
      discriminate.
    + rewrite IH. split.
      * intros Hall t tr p [[= -> ->]|Hin]%elem_of_cons Hp'; [|eauto].
        eapply rangePatterns_None; eassumption.
      * intros Hall t tr p Hin. apply (Hall t tr p). right. exact Hin.
Qed.

(** Resolution always produces rules. *)
Lemma GetClusterRules_total (c : config.Config) (context : string) :
  ∃ r, config.GetClusterRules c context r.
Proof.
  eexists. exists (map_to_list (config.Clusters c)), (map_to_list (config.Tiers c)).
  split_and!; [apply range_order_map_to_list..|reflexivity].
Qed.

(** An exact key of [clusters] decides alone. *)
Lemma GetClusterRules_exact (c : config.Config) (context : string)
    (rules : config.ClusterRules.t) (r : config.ResolvedRules.t) :
  config.Clusters c !! context = Some rules →
  (config.GetClusterRules c context r ↔ r = config.ofCluster rules).
Proof.
  intros Hexact. split.
  - intros (co & to & _ & _ & ->).
    unfold config.GetClusterRules_in. rewrite Hexact. reflexivity.
  - intros ->.
    exists (map_to_list (config.Clusters c)), (map_to_list (config.Tiers c)).
    split_and!; [apply range_order_map_to_list..|].
    unfold config.GetClusterRules_in. rewrite Hexact. reflexivity.
Qed.

(** Without an exact key: a matching cluster key, else a matching tier,
    else the defaults. *)
Lemma GetClusterRules_no_exact (c : config.Config) (context : string)
    (r : config.ResolvedRules.t) :
  config.Clusters c !! context = None →
  config.GetClusterRules c context r →
  (∃ pattern rules, clusterMatches c context pattern rules ∧
                    r = config.ofCluster rules) ∨
  ((∀ pattern rules, ¬ clusterMatches c context pattern rules) ∧
   ((∃ tierName tier, tierMatches c context tierName tier ∧
                      r = config.ofTier tierName tier) ∨
    ((∀ tierName tier, ¬ tierMatches c context tierName tier) ∧
     r = config.defaultRules c))).
Proof.
  intros Hnone (co & to & Hco & Hto & ->).
  unfold config.GetClusterRules_in. rewrite Hnone.
  destruct (config.rangeClusters context co) as [r|] eqn:Hc.
  { left. apply rangeClusters_Some in Hc as (p & rules & Hin & Hm & ->).
    exists p, rules. split; [|reflexivity]. split; [|exact Hm].
    apply (range_order_lookup _ _ _ _ Hco), Hin. }
  right. split.
  { intros p rules [Hlk Hm].
    apply (range_order_lookup _ _ _ _ Hco) in Hlk.
    rewrite (proj1 (rangeClusters_None context co) Hc p rules Hlk) in Hm.
    discriminate. }
  destruct (config.rangeTiers context to) as [r|] eqn:Ht.
  { left. apply rangeTiers_Some in Ht as (t & tier & p & Hin & Hp & Hm & ->).
    exists t, tier. split; [|reflexivity]. split; [|eauto].
    apply (range_order_lookup _ _ _ _ Hto), Hin. }
  right. split; [|reflexivity].
  intros t tier [Hlk (p & Hp & Hm)].
  apply (range_order_lookup _ _ _ _ Hto) in Hlk.
  rewrite (proj1 (rangeTiers_None context to) Ht t tier p Hlk Hp) in Hm.
  discriminate.
Qed.

(** Without an exact key, a cluster entry whose key matches may be the
    first one visited. *)
Lemma cluster_entry_may_win (c : config.Config) (context pattern : string)
    (rules : config.ClusterRules.t) :
  config.Clusters c !! context = None →
  clusterMatches c context pattern rules →
  config.GetClusterRules c context (config.ofCluster rules).
Proof.
  intros Hnone [Hlk Hm].
  exists ((pattern, rules) :: map_to_list (delete pattern (config.Clusters c))),
         (map_to_list (config.Tiers c)).
  split_and!; [apply range_order_first, Hlk|apply range_order_map_to_list|].
  unfold config.GetClusterRules_in. rewrite Hnone.
  cbn [config.rangeClusters]. rewrite Hm. reflexivity.
Qed.

(** When no cluster key matches, the loop over [clusters] ends without
    returning, in whatever order. *)
Lemma rangeClusters_no_match (c : config.Config) (context : string)
    (clusterOrder : list (string * config.ClusterRules.t)) :
  config.range_order (config.Clusters c) clusterOrder →
  (∀ pattern rules, ¬ clusterMatches c context pattern rules) →
  config.rangeClusters context clusterOrder = None.
Proof.
  intros Hco Hno. apply rangeClusters_None. intros p rules Hin.
  apply (range_order_lookup _ _ _ _ Hco) in Hin.
  apply not_true_is_false. intros Hm. exact (Hno p rules (conj Hin Hm)).
Qed.

(** Without a matching cluster key, a tier with a matching pattern may be
    the first one visited. *)
Lemma tier_may_win (c : config.Config) (context tierName : string)
    (tier : config.TierConfig.t) :
  config.Clusters c !! context = None →
  (∀ pattern rules, ¬ clusterMatches c context pattern rules) →
  tierMatches c context tierName tier →
  config.GetClusterRules c context (config.ofTier tierName tier).
Proof.
  intros Hnone Hno [Hlk Hm].
  exists (map_to_list (config.Clusters c)),
         ((tierName, tier) :: map_to_list (delete tierName (config.Tiers c))).
  split_and!; [apply range_order_map_to_list|apply range_order_first, Hlk|].
  unfold config.GetClusterRules_in. rewrite Hnone.
  rewrite (rangeClusters_no_match c context _ (range_order_map_to_list _) Hno).
  cbn [config.rangeTiers]. rewrite (rangePatterns_match _ _ _ _ Hm).
  reflexivity.
Qed.

(** Without a matching cluster key and a matching tier, the defaults are
    returned. *)
Lemma defaults_win (c : config.Config) (context : string) :
  config.Clusters c !! context = None →
  (∀ pattern rules, ¬ clusterMatches c context pattern rules) →
  (∀ tierName tier, ¬ tierMatches c context tierName tier) →
  config.GetClusterRules c context (config.defaultRules c).
Proof.
  intros Hnone Hno Hnt.
  exists (map_to_list (config.Clusters c)), (map_to_list (config.Tiers c)).
  split_and!; [apply range_order_map_to_list..|].
  unfold config.GetClusterRules_in. rewrite Hnone.
  rewrite (rangeClusters_no_match c context _ (range_order_map_to_list _) Hno).
  replace (config.rangeTiers context (map_to_list (config.Tiers c)))
    with (@None config.ResolvedRules.t); [reflexivity|].
  symmetry. apply rangeTiers_None. intros t tier p Hin Hp.
  apply elem_of_map_to_list in Hin. apply not_true_is_false. intros Hm.
  apply (Hnt t tier). split; eauto.
Qed.

(** C2: resolution is first-match, and always yields rules: when the
    context name is a key of [clusters], the tier, confirmation list and
    blocked list of that entry are returned as they are, whatever the tiers
    hold; only otherwise the results are the rules of the cluster keys that
    glob-match, then, when there is none, those of the tiers with a matching
    pattern, then, when there is none either, the defaults. *)
Theorem exact_match_first (c : config.Config) (context : string)
    (r : config.ResolvedRules.t) :
  (∀ rules, config.Clusters c !! context = Some rules →
     (config.GetClusterRules c context r ↔
      r = config.ResolvedRules.mk (config.ClusterRules.Tier rules)
            (config.ClusterRules.RequireConfirmation rules)
            (config.ClusterRules.BlockedActions rules))) ∧
  (config.Clusters c !! context = None →
   (config.GetClusterRules c context r ↔
    (∃ pattern rules, clusterMatches c context pattern rules ∧
                      r = config.ofCluster rules) ∨
    ((∀ pattern rules, ¬ clusterMatches c context pattern rules) ∧
     ((∃ tierName tier, tierMatches c context tierName tier ∧
                        r = config.ofTier tierName tier) ∨
      ((∀ tierName tier, ¬ tierMatches c context tierName tier) ∧
       r = config.defaultRules c))))) ∧
  (∃ r', config.GetClusterRules c context r').
Proof.
  split_and!.
  - intros rules Hexact. apply (GetClusterRules_exact c context rules r Hexact).
  - intros Hnone. split; [apply GetClusterRules_no_exact, Hnone|].
    intros [(p & rules & Hm & ->)|[Hno [(t & tier & Hm & ->)|[Hnt ->]]]].
    + apply (cluster_entry_may_win c context p rules Hnone Hm).
    + apply (tier_may_win c context t tier Hnone Hno Hm).
    + apply (defaults_win c context Hnone Hno Hnt).
  - apply GetClusterRules_total.
Qed.

(** C5: for a context that is no key of [clusters], that no key of
    [clusters] glob-matches and that no pattern of any tier matches,
    resolution returns tier "default", the blocked list of the defaults,
    and the confirmation list delete, drain when the defaults require
    confirmation, the empty list otherwise. *)
Theorem default_fallback (c : config.Config) (context : string)
    (r : config.ResolvedRules.t) :
  config.Clusters c !! context = None →
  (∀ pattern rules, ¬ clusterMatches c context pattern rules) →
  (∀ tierName tier, ¬ tierMatches c context tierName tier) →
  (config.GetClusterRules c context r ↔
   r = config.ResolvedRules.mk "default"
         (if config.DefaultsConfig.RequireConfirmation (config.Defaults c)
          then ["delete"; "drain"] else [])
         (config.DefaultsConfig.BlockedActions (config.Defaults c))).
Proof.
  intros Hnone Hclusters Htiers.
  assert (Hin : ∀ co to, config.range_order (config.Clusters c) co →
                config.range_order (config.Tiers c) to →
                config.GetClusterRules_in co to c context =
                config.defaultRules c).
  { intros co to Hco Hto. unfold config.GetClusterRules_in. rewrite Hnone.
    replace (config.rangeClusters context co) with (@None config.ResolvedRules.t).
    2:{ symmetry. apply rangeClusters_None. intros p rules Hin.
        apply (range_order_lookup _ _ _ _ Hco) in Hin.
        apply not_true_is_false. intros Hm.
        exact (Hclusters p rules (conj Hin Hm)). }
    replace (config.rangeTiers context to) with (@None config.ResolvedRules.t).
    2:{ symmetry. apply rangeTiers_None. intros t tier p Hin Hp.
        apply (range_order_lookup _ _ _ _ Hto) in Hin.
        apply not_true_is_false. intros Hm.
        apply (Htiers t tier). split; eauto. }
    reflexivity. }
  split.
  - intros (co & to & Hco & Hto & ->). rewrite Hin by assumption. reflexivity.
  - intros ->. exists (map_to_list (config.Clusters c)),
                      (map_to_list (config.Tiers c)).
    split_and!; [apply range_order_map_to_list..|].
    rewrite Hin by apply range_order_map_to_list. reflexivity.
Qed.

(** C6, as the code has it: a pattern that [glob.Compile] rejects is
    handed to [filepath.Match], whose verdict is returned and whose error
    is dropped; resolution yields rules whatever the patterns are. *)
Theorem compile_failure_falls_back_to_filepath (pattern str : string) :
  glob_Compile pattern = None →
  config.matchGlob pattern str = (filepath_Match pattern str).1 ∧
  (∀ c context, ∃ r, config.GetClusterRules c context r).
Proof.
  intros Hfail. split.
  - unfold config.matchGlob. rewrite Hfail. reflexivity.
  - apply GetClusterRules_total.
Qed.

(** C7, as the code has it: resolving a context twice yields the same
    rules, whatever the orders in which the two maps are visited, exactly
    when the context is a key of [clusters], or else the keys of [clusters]
    that match it all carry the same rules and, when none matches, at most
    one tier has a pattern that matches it. *)
Theorem resolution_independent_of_visit_order (c : config.Config)
    (context : string) :
  (∀ r1 r2, config.GetClusterRules c context r1 →
            config.GetClusterRules c context r2 → r1 = r2) ↔
  (is_Some (config.Clusters c !! context) ∨
   ((∀ p1 rules1 p2 rules2,
       clusterMatches c context p1 rules1 →
       clusterMatches c context p2 rules2 → rules1 = rules2) ∧
    ((∃ pattern rules, clusterMatches c context pattern rules) ∨
     (∀ t1 tier1 t2 tier2,
        tierMatches c context t1 tier1 →
        tierMatches c context t2 tier2 → t1 = t2)))).
Proof.
  destruct (config.Clusters c !! context) as [rules|] eqn:Hexact.
  { split; [intros _; left; eauto|]. intros _ r1 r2 H1 H2.
    apply (GetClusterRules_exact c context rules) in H1, H2; try assumption.
    congruence. }
  split.
  - intros Hsame. right. split.
    + intros p1 rules1 p2 rules2 Hm1 Hm2.
      pose proof (Hsame _ _ (cluster_entry_may_win c context p1 rules1 Hexact Hm1)
                    (cluster_entry_may_win c context p2 rules2 Hexact Hm2)) as Heq.
      destruct rules1, rules2. injection Heq as -> -> ->. reflexivity.
    + destruct (config.rangeClusters context (map_to_list (config.Clusters c)))
        as [r|] eqn:Hc.
      * left. apply rangeClusters_Some in Hc as (p & rules & Hin & Hm & _).
        exists p, rules. split; [apply elem_of_map_to_list, Hin|exact Hm].
      * right. intros t1 tier1 t2 tier2 Hm1 Hm2.
        assert (Hno : ∀ pattern rules, ¬ clusterMatches c context pattern rules).
        { intros p rules [Hlk Hm]. apply elem_of_map_to_list in Hlk.
          rewrite (proj1 (rangeClusters_None _ _) Hc p rules Hlk) in Hm.
          discriminate Hm. }
        pose proof (Hsame _ _ (tier_may_win c context t1 tier1 Hexact Hno Hm1)
                      (tier_may_win c context t2 tier2 Hexact Hno Hm2)) as Heq.
        injection Heq as -> _ _. reflexivity.
  - intros [[rules Hsome]|[Hclusters Htiers]] r1 r2 H1 H2; [discriminate|].
    apply GetClusterRules_no_exact in H1, H2; try assumption.
    destruct H1 as [(p1 & rules1 & Hm1 & ->)|[Hno1 H1]],
             H2 as [(p2 & rules2 & Hm2 & ->)|[Hno2 H2]].
    + rewrite (Hclusters _ _ _ _ Hm1 Hm2). reflexivity.
    + exfalso. eapply Hno2. eassumption.
    + exfalso. eapply Hno1. eassumption.
    + destruct Htiers as [(p & rules & Hm)|Htiers];
        [exfalso; eapply Hno1; eassumption|].
      destruct H1 as [(t1 & tier1 & Hm1 & ->)|[Hnt1 ->]],
               H2 as [(t2 & tier2 & Hm2 & ->)|[Hnt2 ->]].
      * assert (t1 = t2) by eauto. subst t2.
        destruct Hm1 as [Hl1 _], Hm2 as [Hl2 _]. congruence.
      * exfalso. eapply Hnt2. eassumption.
      * exfalso. eapply Hnt1. eassumption.
      * reflexivity.
Qed.

End ResolutionProperties.

(** *** On the reference matcher *)

(** [TestGetClusterRules_Priority]: [special-prod] is a key of [clusters] and
    matches the pattern [*-prod] of tier production; the cluster entry wins. *)
Lemma exact_match_first_witness :
  config.Clusters Reference.priorityConfig !! "special-prod" =
    Some (config.ClusterRules.mk "special" ["scale"] ["delete"]) ∧
  @tierMatches Reference.starGlob Reference.priorityConfig "special-prod"
    "production" (config.TierConfig.mk ["*-prod"] ["delete"; "drain"] []) ∧
  @config.GetClusterRules Reference.starGlob Reference.priorityConfig
    "special-prod" (config.ResolvedRules.mk "special" ["scale"] ["delete"]).
Proof.
  assert (Hexact : config.Clusters Reference.priorityConfig !! "special-prod" =
            Some (config.ClusterRules.mk "special" ["scale"] ["delete"]))
    by (vm_compute; reflexivity).
  split_and!.
  - exact Hexact.
  - split; [vm_compute; reflexivity|].
    exists "*-prod". split; [left|vm_compute; reflexivity].
  - exact (proj2 (proj1 (@exact_match_first Reference.starGlob
                           Reference.priorityConfig "special-prod" _)
                    _ Hexact) eq_refl).
Defined.

Lemma default_fallback_witness :
  @config.GetClusterRules Reference.starGlob Reference.strictConfig
    "unknown-cluster"
    (config.ResolvedRules.mk "default" ["delete"; "drain"] ["exec"]).
Proof.
  refine (proj2 (@default_fallback Reference.starGlob Reference.strictConfig
                   "unknown-cluster" _ _ _ _) eq_refl).
  - vm_compute. reflexivity.
  - intros pattern rules [Hlk Hm].
    apply elem_of_list_to_map_2 in Hlk.
    repeat (apply elem_of_cons in Hlk as [[= -> ->]|Hlk];
            [vm_compute in Hm; discriminate Hm|]).
    inversion Hlk.
  - intros tierName tier [Hlk (pattern & Hp & Hm)].
    apply elem_of_list_to_map_2 in Hlk.
    repeat (apply elem_of_cons in Hlk as [[= -> ->]|Hlk];
            [cbn [config.TierConfig.Patterns] in Hp;
             repeat (apply elem_of_cons in Hp as [->|Hp];
                     [vm_compute in Hm; discriminate Hm|]);
             inversion Hp|]).
    inversion Hlk.
Defined.

(** C6 fails on the code: the pattern [prod[1] does not compile, and the
    context [prod[1], equal to it byte for byte, does not match it. *)
Lemma malformed_pattern_equal_to_context_rejected :
  @glob_Compile Reference.starGlob "prod[1" = None ∧
  ("prod[1" =? "prod[1")%string = true ∧
  @config.matchGlob Reference.starGlob "prod[1" "prod[1" = false.
Proof. vm_compute. repeat split. Qed.

Lemma compile_failure_falls_back_to_filepath_witness :
  @glob_Compile Reference.starGlob "prod[1" = None ∧
  @config.matchGlob Reference.starGlob "prod[1" "prod[1" =
    (@filepath_Match Reference.starGlob "prod[1" "prod[1").1.
Proof.
  assert (Hfail : @glob_Compile Reference.starGlob "prod[1" = None)
    by (vm_compute; reflexivity).
  split; [exact Hfail|].
  exact (proj1 (@compile_failure_falls_back_to_filepath Reference.starGlob
                  "prod[1" "prod[1" Hfail)).
Defined.

(** The two orders of visit of the clusters of [overlapConfig]. *)
Lemma overlapEntries_order :
  config.range_order (config.Clusters Reference.overlapConfig)
    Reference.overlapEntries.
Proof.
  unfold config.range_order. symmetry. apply map_to_list_to_map.
  vm_compute. repeat constructor; by_cases_on_list.
Qed.

Lemma overlapEntries_reverse_order :
  config.range_order (config.Clusters Reference.overlapConfig)
    (reverse Reference.overlapEntries).
Proof.
  unfold config.range_order. rewrite reverse_Permutation.
  apply overlapEntries_order.
Qed.

(** C7 fails on the code: [prod-east] matches two keys of [clusters], and
    resolving it twice may yield the rules of either. *)
Lemma resolution_depends_on_visit_order :
  @config.GetClusterRules Reference.starGlob Reference.overlapConfig
    "prod-east" (config.ResolvedRules.mk "production" ["delete"] []) ∧
  @config.GetClusterRules Reference.starGlob Reference.overlapConfig
    "prod-east" (config.ResolvedRules.mk "regional" [] []) ∧
  config.ResolvedRules.mk "production" ["delete"] [] ≠
  config.ResolvedRules.mk "regional" [] [].
Proof.
  split_and!.
  - exists Reference.overlapEntries,
      (map_to_list (config.Tiers Reference.overlapConfig)).
    split_and!; [apply overlapEntries_order|apply range_order_map_to_list|].
    vm_compute. reflexivity.
  - exists (reverse Reference.overlapEntries),
      (map_to_list (config.Tiers Reference.overlapConfig)).
    split_and!; [apply overlapEntries_reverse_order|apply range_order_map_to_list|].
    vm_compute. reflexivity.
  - discriminate.
Qed.

(** In [shadowedConfig] the context [prod-east] matches one key of
    [clusters] and a pattern of each of the two tiers: the tiers are never
    reached, and whatever the order of visit it resolves to the rules of the
    cluster entry. *)
Lemma resolution_independent_of_visit_order_witness :
  @tierMatches Reference.starGlob Reference.shadowedConfig "prod-east" "east"
    (config.TierConfig.mk ["*-east"] [] []) ∧
  @tierMatches Reference.starGlob Reference.shadowedConfig "prod-east" "edge"
    (config.TierConfig.mk ["prod-*"] ["drain"] []) ∧
  @config.GetClusterRules Reference.starGlob Reference.shadowedConfig
    "prod-east" (config.ResolvedRules.mk "production" ["delete"] []) ∧
  (∀ r, @config.GetClusterRules Reference.starGlob Reference.shadowedConfig
          "prod-east" r →
        r = config.ResolvedRules.mk "production" ["delete"] []).
Proof.
  assert (Hm : @clusterMatches Reference.starGlob Reference.shadowedConfig
                 "prod-east" "prod-*"
                 (config.ClusterRules.mk "production" ["delete"] []))
    by (split; vm_compute; reflexivity).
  assert (Hr0 : @config.GetClusterRules Reference.starGlob
                  Reference.shadowedConfig "prod-east"
                  (config.ResolvedRules.mk "production" ["delete"] [])).
  { exists (map_to_list (config.Clusters Reference.shadowedConfig)),
           (map_to_list (config.Tiers Reference.shadowedConfig)).
    split_and!; [apply range_order_map_to_list..|].
    vm_compute. reflexivity. }
  split_and!.
  - split; [vm_compute; reflexivity|].
    exists "*-east". split; [left|vm_compute; reflexivity].
  - split; [vm_compute; reflexivity|].
    exists "prod-*". split; [left|vm_compute; reflexivity].
  - exact Hr0.
  - intros r Hr.
    refine (proj2 (@resolution_independent_of_visit_order Reference.starGlob
                     Reference.shadowedConfig "prod-east") _ _ _ Hr Hr0).
    right. split.
    + intros p1 rules1 p2 rules2 [Hl1 _] [Hl2 _].
      apply elem_of_list_to_map_2 in Hl1, Hl2.
      apply elem_of_cons in Hl1 as [[= _ ->]|Hl1]; [|inversion Hl1].
      apply elem_of_cons in Hl2 as [[= _ ->]|Hl2]; [|inversion Hl2].
      reflexivity.
    + left. eexists _, _. exact Hm.
Defined.

(** ** Runs on the reference instances *)

(** The table of [TestMatchGlob], on the reference matcher. *)
Example matchGlob_table :
  let m := @config.matchGlob Reference.starGlob in
  m "*-prod" "cluster-prod" = true ∧ m "*-prod" "my-app-prod" = true ∧
  m "*-prod" "prod-cluster" = false ∧ m "prod-*" "prod-cluster" = true ∧
  m "prod-*" "cluster-prod" = false ∧ m "*-*-prod" "us-east-prod" = true ∧
  m "*-*-prod" "prod" = false ∧ m "minikube" "minikube" = true ∧
  m "minikube" "minikube-2" = false ∧ m "docker-desktop" "docker-desktop" = true ∧
  m "kind-*" "kind-test" = true ∧ m "kind-*" "kind-" = true ∧
  m "kind-*" "kind" = false ∧ m "*-PROD" "cluster-prod" = false ∧
  m "*-prod" "cluster-PROD" = false.
Proof. vm_compute. repeat split. Qed.

(** The end-to-end scenario of the specification: on the built-in
    configuration, [delete pod foo] in context [prod-us-east-1] asks for
    confirmation with tier [production]; with [--yes] it runs kubectl. *)
Example end_to_end_prod :
  let run := @main.main Reference.asciiOnly Reference.starGlob
               (Reference.world "prod-us-east-1") in
  run ["delete"; "pod"; "foo"] =
    ([main.PrintConfirmationHeader "Delete resources" "prod-us-east-1" "production";
      main.PrintSublog "Namespace: default";
      main.PrintSublog "Command: kubectl delete pod foo";
      main.PrintEmptyLine;
      main.PromptConfirmation "Do you want to proceed?";
      main.PrintSublog "Operation cancelled by user"], 0%Z) ∧
  run ["delete"; "pod"; "foo"; "--yes"] =
    ([main.Execute ["delete"; "pod"; "foo"]], 0%Z).
Proof. vm_compute. split; reflexivity. Qed.

Example end_to_end_minikube :
  @main.main Reference.asciiOnly Reference.starGlob (Reference.world "minikube")
    ["delete"; "pod"; "foo"] = ([main.Execute ["delete"; "pod"; "foo"]], 0%Z).
Proof. vm_compute. reflexivity. Qed.

(** * Further properties of the code *)

(** ** More on rule matching and classification *)

Section MatchingMore.
Context `{Unicode}.

(** The aliases of [matchAction] go one way only: two tokens that match
    each other in both roles are equal once lowered. *)
Theorem matchAction_antisymmetric (rule action : string) :
  rbac.matchAction rule action = true →
  rbac.matchAction action rule = true →
  strings.ToLower rule = strings.ToLower action.
Proof.
  intros H1 H2. apply matchAction_spec in H1, H2.
  destruct H1 as [H1|[[H1 H1']|[[H1 H1']|[H1 H1']]]]; [exact H1|..];
    destruct H2 as [H2|[[H2 H2']|[[H2 H2']|[H2 H2']]]]; congruence.
Qed.

(** The values of [DestructiveActions] and its keys. *)
Lemma DestructiveActions_lookup (verb action : string) :
  rbac.DestructiveActions !! verb = Some action →
  verb ∈ destructiveVerbs ∧ action = canonical verb.
Proof.
  intros Hlk. apply elem_of_list_to_map_2 in Hlk. unfold destructiveVerbs.
  repeat (apply elem_of_cons in Hlk as [[= -> ->]|Hlk];
          [split; [rewrite !elem_of_cons; auto 12|reflexivity]|]).
  inversion Hlk.
Qed.

(** A cordon or uncordon command is blocked exactly when the blocked list
    holds cordon or drain, in any case; a token uncordon in the list has no
    effect on it. *)
Theorem cordon_blocked_iff (units rest : list string) (verb : string)
    (rules : config.ResolvedRules.t) :
  flagUnits units →
  verb = "cordon" ∨ verb = "uncordon" →
  (rbac.IsBlocked (rbac.DetectAction (units ++ verb :: rest)) rules = true ↔
   ∃ token, token ∈ config.ResolvedRules.BlockedActions rules ∧
     (strings.ToLower token = "cordon" ∨ strings.ToLower token = "drain")).
Proof.
  intros Hu Hv.
  assert (Hd : rbac.DetectAction (units ++ verb :: rest) = "cordon").
  { destruct Hv as [->| ->];
      rewrite DetectAction_first_token by (exact Hu || reflexivity);
      vm_compute; reflexivity. }
  rewrite Hd. unfold rbac.IsBlocked. rewrite anyMatch_true.
  assert (Hl : strings.ToLower "cordon" = "cordon") by reflexivity.
  split; intros (token & Hin & Hm); exists token; (split; [exact Hin|]).
  - apply matchAction_spec in Hm. rewrite Hl in Hm.
    destruct Hm as [Hm|[[Hm _]|[[_ Hm]|[_ Hm]]]]; auto; discriminate Hm.
  - apply matchAction_spec. rewrite Hl. destruct Hm as [Hm|Hm]; auto.
Qed.

End MatchingMore.

Lemma matchAction_antisymmetric_witness :
  @rbac.matchAction Reference.asciiOnly "DELETE" "delete" = true ∧
  @rbac.matchAction Reference.asciiOnly "delete" "DELETE" = true ∧
  @strings.ToLower Reference.asciiOnly "DELETE" =
  @strings.ToLower Reference.asciiOnly "delete".
Proof.
  split; [reflexivity|]. split; [reflexivity|].
  apply (@matchAction_antisymmetric Reference.asciiOnly "DELETE" "delete");
    reflexivity.
Defined.

Lemma cordon_blocked_iff_witness :
  flagUnits ["--context"; "prod"] ∧
  @rbac.IsBlocked Reference.asciiOnly
    (rbac.DetectAction ["--context"; "prod"; "uncordon"; "node-1"])
    (config.ResolvedRules.mk "production" [] ["Drain"]) = true.
Proof.
  assert (Hu : flagUnits ["--context"; "prod"]).
  { apply flagUnits_valued; [vm_compute; reflexivity|]. apply flagUnits_nil. }
  split; [exact Hu|].
  apply (proj2 (@cordon_blocked_iff Reference.asciiOnly ["--context"; "prod"]
                  ["node-1"] "uncordon"
                  (config.ResolvedRules.mk "production" [] ["Drain"])
                  Hu (or_intror eq_refl))).
  exists "Drain". split; [left|right; reflexivity].
Defined.

(** The alias of drain does not go back: a rule cordon leaves drain alone,
    and a rule uncordon does not cover the uncordon command. *)
Example aliases_one_way :
  let U := Reference.asciiOnly in
  rbac.matchAction "drain" "cordon" = true ∧
  rbac.matchAction "cordon" "drain" = false ∧
  rbac.IsBlocked (rbac.DetectAction ["uncordon"; "node-1"])
    (config.ResolvedRules.mk "t" [] ["uncordon"]) = false.
Proof. vm_compute. repeat split. Qed.

(** The loop of [DetectAction] returns "unknown", a token of the vector that
    is no flag, or the tag of a destructive verb of the vector. *)
Lemma DetectAction_loop_provenance (skipNext : bool) (args : list string) :
  rbac.DetectAction_loop skipNext args = "unknown" ∨
  ∃ token, token ∈ args ∧ strings.HasPrefix token "-" = false ∧
           rbac.DetectAction_loop skipNext args =
             default token (rbac.DestructiveActions !! token).
Proof.
  revert skipNext. induction args as [|arg rest IH]; intros skipNext.
  - left. destruct skipNext; reflexivity.
  - assert (Hrest : ∀ b, rbac.DetectAction_loop b rest = "unknown" ∨
              ∃ token, token ∈ arg :: rest ∧
                strings.HasPrefix token "-" = false ∧
                rbac.DetectAction_loop b rest =
                  default token (rbac.DestructiveActions !! token)).
    { intros b. destruct (IH b) as [Hu|(token & Hin & Hp & Hr)]; [left; exact Hu|].
      right. exists token. split; [right; exact Hin|]. split; assumption. }
    destruct skipNext; [rewrite DetectAction_loop_skip; apply Hrest|].
    rewrite DetectAction_loop_cons.
    destruct (strings.HasPrefix arg "--" && strings.Contains arg "=");
      [apply Hrest|].
    destruct (strings.HasPrefix arg "-") eqn:Hp.
    + destruct (rbac.takesValue arg); apply Hrest.
    + right. exists arg. split; [left|]. split; [exact Hp|reflexivity].
Qed.

(** [DetectAction] never returns a flag: its result is "unknown", a token of
    the vector that does not start with [-], or "cordon" for a vector that
    holds uncordon. *)
Theorem DetectAction_provenance (args : list string) :
  strings.HasPrefix (rbac.DetectAction args) "-" = false ∧
  (rbac.DetectAction args = "unknown" ∨
   rbac.DetectAction args ∈ args ∨
   (rbac.DetectAction args = "cordon" ∧ "uncordon" ∈ args)).
Proof.
  assert (Hloop : rbac.DetectAction args = rbac.DetectAction_loop false args)
    by (destruct args; reflexivity).
  rewrite Hloop.
  destruct (DetectAction_loop_provenance false args)
    as [->|(token & Hin & Hp & ->)].
  { split; [reflexivity|left; reflexivity]. }
  destruct (rbac.DestructiveActions !! token) as [action|] eqn:Hlk; simpl.
  - apply DestructiveActions_lookup in Hlk as [Hv ->].
    unfold destructiveVerbs in Hv. unfold canonical.
    repeat (apply elem_of_cons in Hv as [->|Hv];
            [split; [reflexivity|];
             first [right; left; exact Hin
                   |right; right; split; [reflexivity|exact Hin]]|]).
    inversion Hv.
  - split; [exact Hp|]. right. left. exact Hin.
Qed.

(** Arguments added at the end never change a classification other than
    "unknown". *)
Lemma DetectAction_loop_app (skipNext : bool) (args more : list string) :
  rbac.DetectAction_loop skipNext (args ++ more) =
    rbac.DetectAction_loop skipNext args ∨
  rbac.DetectAction_loop skipNext args = "unknown".
Proof.
  revert skipNext. induction args as [|arg rest IH]; intros skipNext.
  - right. destruct skipNext; reflexivity.
  - rewrite <- app_comm_cons.
    destruct skipNext; [rewrite !DetectAction_loop_skip; apply IH|].
    rewrite !DetectAction_loop_cons.
    destruct (strings.HasPrefix arg "--" && strings.Contains arg "=");
      [apply IH|].
    destruct (strings.HasPrefix arg "-"); [|left; reflexivity].
    destruct (rbac.takesValue arg); apply IH.
Qed.

Theorem DetectAction_stable_under_suffix (args more : list string) :
  rbac.DetectAction args ≠ "unknown" →
  rbac.DetectAction (args ++ more) = rbac.DetectAction args.
Proof.
  intros Hk. destruct args as [|arg rest]; [contradiction Hk; reflexivity|].
  destruct (DetectAction_loop_app false (arg :: rest) more) as [Happ|Hu].
  - exact Happ.
  - contradiction Hk.
Qed.

Lemma DetectAction_stable_under_suffix_witness :
  rbac.DetectAction ["-n"; "prod"; "delete"] ≠ "unknown" ∧
  rbac.DetectAction (["-n"; "prod"; "delete"] ++ ["pod"; "--force"; "drain"])%list =
  rbac.DetectAction ["-n"; "prod"; "delete"].
Proof.
  assert (Hk : rbac.DetectAction ["-n"; "prod"; "delete"] ≠ "unknown")
    by (vm_compute; discriminate).
  split; [exact Hk|].
  exact (DetectAction_stable_under_suffix _ ["pod"; "--force"; "drain"] Hk).
Defined.

(** ** More on [main] *)

Section MainMore.
Context `{Unicode} `{PatternLib}.

(** The four ways [enforce] ends. *)
Lemma enforce_cases (w : main.World) (context : string) (args : list string)
    (hasYesFlag : bool) (action : string) (rules : config.ResolvedRules.t) :
  let run := main.enforce w context args hasYesFlag action rules in
  (∃ reason, run = ([main.PrintBlocked action context reason], 1%Z)) ∨
  (hasYesFlag = false ∧ main.confirmed w "Do you want to proceed?" = false ∧
   ∃ header sub1 sub2,
     run = ([header; sub1; sub2; main.PrintEmptyLine;
             main.PromptConfirmation "Do you want to proceed?";
             main.PrintSublog "Operation cancelled by user"], 0%Z) ∧
     header = main.PrintConfirmationHeader (rbac.DescribeAction action) context
                (config.ResolvedRules.Tier rules) ∧
     (∃ m, sub1 = main.PrintSublog m) ∧ (∃ m, sub2 = main.PrintSublog m)) ∨
  (hasYesFlag = false ∧ main.confirmed w "Do you want to proceed?" = true ∧
   ∃ header sub1 sub2,
     run = ([header; sub1; sub2; main.PrintEmptyLine;
             main.PromptConfirmation "Do you want to proceed?";
             main.PrintEmptyLine; main.Execute args], main.exitCode w args) ∧
     header = main.PrintConfirmationHeader (rbac.DescribeAction action) context
                (config.ResolvedRules.Tier rules) ∧
     (∃ m, sub1 = main.PrintSublog m) ∧ (∃ m, sub2 = main.PrintSublog m)) ∨
  run = ([main.Execute args], main.exitCode w args).
Proof.
  cbn zeta. unfold main.enforce.
  destruct (rbac.IsBlocked action rules); [left; eauto|].
  destruct (rbac.RequiresConfirmation action rules); cbn [andb];
    [|right; right; right; reflexivity].
  destruct hasYesFlag; cbn [negb]; [right; right; right; reflexivity|].
  destruct (main.confirmed w "Do you want to proceed?"); cbn [negb app].
  - right. right. left. split_and!; try reflexivity.
    eexists _, _, _. split_and!; eauto.
  - right. left. split_and!; try reflexivity.
    eexists _, _, _. split_and!; eauto.
Qed.

(** [main] stops before it reads the configuration, or stops for want of
    a context, or is [guarded] after the warning about an unreadable
    configuration, if any. *)
Lemma main_cases (w : main.World) (args : list string) :
  ((∀ a, main.Execute a ∉ (main.main w args).1) ∧
   (∀ p, main.PromptConfirmation p ∉ (main.main w args).1) ∧
   (∀ l, main.main (withLoad w l) args = main.main w args) ∧
   (∀ a c r, main.PrintBlocked a c r ∉ (main.main w args).1)) ∨
  (∃ msg,
     main.GetCurrentContext w = inr msg ∧
     main.main w args =
       ((loadWarning w ++
         [main.PrintError ("Failed to get current context: " +:+ msg);
          main.PrintSublog
            "Make sure kubectl is configured with a valid context"])%list,
        1%Z)) ∨
  (∃ context,
     main.GetCurrentContext w = inl context ∧
     main.main w args =
       ((loadWarning w ++
         (main.guarded w (loadedConfig w) context args).1)%list,
        (main.guarded w (loadedConfig w) context args).2)).
Proof.
  unfold main.main, loadWarning, loadedConfig. destruct args as [|arg0 rest].
  { left. cbn [fst]. split_and!; [intros a; by_cases_on_list..|reflexivity|intros a c r; by_cases_on_list]. }
  set (args := arg0 :: rest).
  cbn [withLoad main.execName main.initStatus main.CheckKubectlAvailable
       main.Load main.GetCurrentContext].
  destruct (_ || _);
    [left; cbn [fst]; split_and!; [intros a; by_cases_on_list..|reflexivity|intros a c r; by_cases_on_list]|].
  destruct (_ || _);
    [left; cbn [fst]; split_and!; [intros a; by_cases_on_list..|reflexivity|intros a c r; by_cases_on_list]|].
  destruct (_ =? _)%string;
    [left; cbn [fst]; split_and!; [intros a; by_cases_on_list..|reflexivity|intros a c r; by_cases_on_list]|].
  destruct (_ =? _)%string;
    [left; cbn [fst]; split_and!; [intros a; by_cases_on_list..|reflexivity|intros a c r; by_cases_on_list]|].
  destruct (negb _);
    [left; cbn [fst]; split_and!; [intros a; by_cases_on_list..|reflexivity|intros a c r; by_cases_on_list]|].
  right. destruct (main.GetCurrentContext w) as [context|msg].
  - right. exists context. split; [reflexivity|].
    destruct (main.Load w) as [cfg|err];
      destruct (main.guarded w _ context args); reflexivity.
  - left. exists msg. split; [reflexivity|].
    destruct (main.Load w) as [cfg|err]; reflexivity.
Qed.

(** The warning about the configuration is a warning. *)
Lemma loadWarning_only_warns (w : main.World) (e : main.Event) :
  e ∈ loadWarning w → ∃ m, e = main.PrintWarning m.
Proof.
  unfold loadWarning. destruct (main.Load w) as [cfg|err]; [by_cases_on_list|].
  destruct (negb _); [|by_cases_on_list].
  intros [->|Hin]%elem_of_cons; [eauto|inversion Hin].
Qed.

(** [kubectl.Execute] is called at most once, as the last thing [main]
    does, and [main] then calls [os.Exit] with the very code
    [kubectl.Execute] returned. *)
Theorem main_executes_last (w : main.World) (args a : list string) :
  main.Execute a ∈ (main.main w args).1 →
  ∃ before,
    (main.main w args).1 = (before ++ [main.Execute a])%list ∧
    (∀ b, main.Execute b ∉ before) ∧
    (main.main w args).2 = main.exitCode w a.
Proof.
  destruct (main_cases w args)
    as [(Hno & _ & _ & _)|[(msg & _ & ->)|(context & _ & ->)]]; cbn [fst snd].
  - intros Hin. destruct (Hno a Hin).
  - rewrite elem_of_app. intros [Hin|Hin].
    + apply loadWarning_only_warns in Hin as [m Hm]. discriminate Hm.
    + by_cases_on_list.
  - assert (Hw : ∀ b, main.Execute b ∉ loadWarning w).
    { intros b Hin. apply loadWarning_only_warns in Hin as [m Hm].
      discriminate Hm. }
    rewrite guarded_unfold.
    destruct (enforce_cases w context (main.extractYes false [] args).2
                (main.extractYes false [] args).1
                (rbac.DetectAction (main.extractYes false [] args).2)
                (config.GetClusterRules_in
                   (main.clusterOrder w (config.Clusters (loadedConfig w)))
                   (main.tierOrder w (config.Tiers (loadedConfig w)))
                   (loadedConfig w) context))
      as [(reason & ->)|[(_ & _ & hd & s1 & s2 & -> & -> & [m1 ->] & [m2 ->])
         |[(_ & _ & hd & s1 & s2 & -> & -> & [m1 ->] & [m2 ->])| ->]]];
      cbn [fst snd]; rewrite elem_of_app; intros [Hin|Hin];
      try (destruct (Hw _ Hin)); try (exfalso; revert Hin; by_cases_on_list).
    + assert (a = (main.extractYes false [] args).2) as ->
        by (revert Hin; by_cases_on_list).
      eexists (loadWarning w ++ [_; _; _; _; _; _])%list.
      split; [rewrite <- app_assoc; reflexivity|]. split; [|reflexivity].
      intros b. rewrite elem_of_app. intros [Hb|Hb]; [exact (Hw _ Hb)|].
      revert Hb. by_cases_on_list.
    + assert (a = (main.extractYes false [] args).2) as ->
        by (revert Hin; by_cases_on_list).
      exists (loadWarning w). split; [reflexivity|]. split; [apply Hw|reflexivity].
Qed.


(** After a prompt that the user does not confirm, kubectl does not run and
    the exit status is 0. *)
Theorem declined_prompt_never_executes (w : main.World) (args : list string)
    (p : string) :
  main.PromptConfirmation p ∈ (main.main w args).1 →
  main.confirmed w p = false →
  (main.main w args).2 = 0%Z ∧ ∀ a, main.Execute a ∉ (main.main w args).1.
Proof.
  destruct (main_cases w args)
    as [(_ & Hno & _ & _)|[(msg & _ & ->)|(context & _ & ->)]]; cbn [fst snd].
  - intros Hin. destruct (Hno p Hin).
  - rewrite elem_of_app. intros [Hin|Hin].
    + apply loadWarning_only_warns in Hin as [m Hm]. discriminate Hm.
    + revert Hin. by_cases_on_list.
  - assert (Hw : ∀ e, e ∈ loadWarning w → ∃ m, e = main.PrintWarning m)
      by apply loadWarning_only_warns.
    rewrite guarded_unfold.
    destruct (enforce_cases w context (main.extractYes false [] args).2
                (main.extractYes false [] args).1
                (rbac.DetectAction (main.extractYes false [] args).2)
                (config.GetClusterRules_in
                   (main.clusterOrder w (config.Clusters (loadedConfig w)))
                   (main.tierOrder w (config.Tiers (loadedConfig w)))
                   (loadedConfig w) context))
      as [(reason & ->)|[(_ & Hc & hd & s1 & s2 & -> & -> & [m1 ->] & [m2 ->])
         |[(_ & Hc & hd & s1 & s2 & -> & -> & [m1 ->] & [m2 ->])| ->]]];
      cbn [fst snd]; rewrite elem_of_app; intros [Hin|Hin] Hp;
      try (apply Hw in Hin as [m Hm]; discriminate Hm);
      try (exfalso; revert Hin; by_cases_on_list).
    split; [reflexivity|]. intros a. rewrite elem_of_app. intros [Ha|Ha].
    + apply Hw in Ha as [m Hm]. discriminate Hm.
    + revert Ha. by_cases_on_list.
Qed.

Lemma guarded_withLoad (w : main.World) (l : config.Config + main.LoadError)
    (cfg : config.Config) (context : string) (args : list string) :
  main.guarded (withLoad w l) cfg context args = main.guarded w cfg context args.
Proof. reflexivity. Qed.

(** A configuration that cannot be read is replaced by the built-in one:
    apart from one warning at most (none when the file does not exist),
    [main] runs as it does on [config.Default]. *)
Theorem unreadable_config_runs_on_default (w : main.World)
    (err : main.LoadError) (args : list string) :
  main.Load w = inr err →
  let builtin := main.main (withLoad w (inl config.Default)) args in
  (main.main w args).2 = builtin.2 ∧
  ((main.main w args).1 = builtin.1 ∨
   (main.isNotExist err = false ∧
    (main.main w args).1 =
      main.PrintWarning
        ("Could not load config: " +:+ main.loadMessage err
           +:+ " (using defaults)") :: builtin.1)).
Proof.
  intros Hload. cbn zeta.
  destruct (main_cases w args)
    as [(_ & _ & Hsame & _)|[(msg & Hctx & Hrun)|(context & Hctx & Hrun)]].
  { rewrite Hsame. split; [reflexivity|left; reflexivity]. }
  - destruct (main_cases (withLoad w (inl config.Default)) args)
      as [(_ & _ & Hsame & _)|[(msg' & Hctx' & Hrun')|(context' & Hctx' & _)]].
    + rewrite <- (Hsame (main.Load w)).
      replace (withLoad (withLoad w (inl config.Default)) (main.Load w)) with w
        by (destruct w; reflexivity).
      split; [reflexivity|left; reflexivity].
    + cbn [withLoad main.GetCurrentContext] in Hctx'.
      rewrite Hctx in Hctx'. injection Hctx' as <-.
      rewrite Hrun, Hrun'. unfold loadWarning. rewrite Hload.
      cbn [withLoad main.Load fst snd app]. split; [reflexivity|].
      destruct (main.isNotExist err); cbn [negb app]; [left; reflexivity|].
      right. split; reflexivity.
    + cbn [withLoad main.GetCurrentContext] in Hctx'. congruence.
  - destruct (main_cases (withLoad w (inl config.Default)) args)
      as [(_ & _ & Hsame & _)|[(msg' & Hctx' & _)|(context' & Hctx' & Hrun')]].
    + rewrite <- (Hsame (main.Load w)).
      replace (withLoad (withLoad w (inl config.Default)) (main.Load w)) with w
        by (destruct w; reflexivity).
      split; [reflexivity|left; reflexivity].
    + cbn [withLoad main.GetCurrentContext] in Hctx'. congruence.
    + cbn [withLoad main.GetCurrentContext] in Hctx'.
      rewrite Hctx in Hctx'. injection Hctx' as <-.
      rewrite Hrun, Hrun'. rewrite guarded_withLoad.
      unfold loadWarning, loadedConfig. rewrite Hload.
      cbn [withLoad main.Load fst snd app]. split; [reflexivity|].
      destruct (main.isNotExist err); cbn [negb app]; [left; reflexivity|].
      right. split; reflexivity.
Qed.

End MainMore.


Lemma declined_prompt_never_executes_witness :
  let run := @main.main Reference.asciiOnly Reference.starGlob
               (Reference.world "prod-us-east-1") ["drain"; "node-1"] in
  main.PromptConfirmation "Do you want to proceed?" ∈ run.1 ∧
  run.2 = 0%Z ∧ ∀ a, main.Execute a ∉ run.1.
Proof.
  cbn zeta.
  assert (Hin : main.PromptConfirmation "Do you want to proceed?" ∈
            (@main.main Reference.asciiOnly Reference.starGlob
               (Reference.world "prod-us-east-1") ["drain"; "node-1"]).1).
  { assert (Hrun : @main.main Reference.asciiOnly Reference.starGlob
                     (Reference.world "prod-us-east-1") ["drain"; "node-1"] =
            ([main.PrintConfirmationHeader "Drain node (evict all pods)"
                "prod-us-east-1" "production";
              main.PrintSublog "Namespace: default";
              main.PrintSublog "Command: kubectl drain node-1";
              main.PrintEmptyLine;
              main.PromptConfirmation "Do you want to proceed?";
              main.PrintSublog "Operation cancelled by user"], 0%Z))
      by (vm_compute; reflexivity).
    rewrite Hrun. cbn [fst]. rewrite !elem_of_cons. auto 8. }
  split; [exact Hin|].
  exact (@declined_prompt_never_executes Reference.asciiOnly Reference.starGlob
           (Reference.world "prod-us-east-1") ["drain"; "node-1"] _ Hin eq_refl).
Defined.

Lemma main_executes_last_witness :
  let run := @main.main Reference.asciiOnly Reference.starGlob
               (Reference.world "minikube") ["delete"; "pod"; "foo"; "-y"] in
  main.Execute ["delete"; "pod"; "foo"] ∈ run.1 ∧
  ∃ before, run.1 = (before ++ [main.Execute ["delete"; "pod"; "foo"]])%list ∧
    (∀ b, main.Execute b ∉ before) ∧ run.2 = 0%Z.
Proof.
  cbn zeta.
  assert (Hin : main.Execute ["delete"; "pod"; "foo"] ∈
            (@main.main Reference.asciiOnly Reference.starGlob
               (Reference.world "minikube") ["delete"; "pod"; "foo"; "-y"]).1).
  { assert (Hrun : @main.main Reference.asciiOnly Reference.starGlob
                     (Reference.world "minikube") ["delete"; "pod"; "foo"; "-y"] =
            ([main.Execute ["delete"; "pod"; "foo"]], 0%Z))
      by (vm_compute; reflexivity).
    rewrite Hrun. left. }
  split; [exact Hin|].
  exact (@main_executes_last Reference.asciiOnly Reference.starGlob
           (Reference.world "minikube") _ _ Hin).
Defined.

Lemma unreadable_config_runs_on_default_witness :
  let w := withLoad (Reference.world "prod-us-east-1")
             (inr {| main.loadMessage := "yaml: line 3: mapping values are not allowed";
                     main.isNotExist := false |}) in
  (@main.main Reference.asciiOnly Reference.starGlob w ["get"; "pods"]).1 =
  [main.PrintWarning
     "Could not load config: yaml: line 3: mapping values are not allowed (using defaults)";
   main.Execute ["get"; "pods"]].
Proof.
  cbn zeta.
  destruct (@unreadable_config_runs_on_default Reference.asciiOnly
              Reference.starGlob
              (withLoad (Reference.world "prod-us-east-1")
                 (inr {| main.loadMessage :=
                           "yaml: line 3: mapping values are not allowed";
                         main.isNotExist := false |}))
              _ ["get"; "pods"] eq_refl) as [_ [Hsame|[_ Hwarn]]].
  - vm_compute in Hsame. discriminate Hsame.
  - rewrite Hwarn. vm_compute. reflexivity.
Defined.

(** ** More on resolution *)

Section ResolutionMore.
Context `{PatternLib}.

(** When the context is no key of [clusters], the rules of every cluster
    key that glob-matches it are a possible result; and when no cluster key
    matches, so are the rules of every tier with a matching pattern: which
    of several matching entries wins is up to the order of visit alone. *)
Theorem every_matching_entry_may_win (c : config.Config) (context : string) :
  config.Clusters c !! context = None →
  (∀ pattern rules, clusterMatches c context pattern rules →
     config.GetClusterRules c context (config.ofCluster rules)) ∧
  ((∀ pattern rules, ¬ clusterMatches c context pattern rules) →
   ∀ tierName tier, tierMatches c context tierName tier →
     config.GetClusterRules c context (config.ofTier tierName tier)).
Proof.
  intros Hnone. split.
  - intros pattern rules [Hlk Hm].
    exists ((pattern, rules) :: map_to_list (delete pattern (config.Clusters c))),
           (map_to_list (config.Tiers c)).
    split_and!; [apply range_order_first, Hlk|apply range_order_map_to_list|].
    unfold config.GetClusterRules_in. rewrite Hnone.
    cbn [config.rangeClusters]. rewrite Hm. reflexivity.
  - intros Hno tierName tier [Hlk Hm].
    exists (map_to_list (config.Clusters c)),
           ((tierName, tier) :: map_to_list (delete tierName (config.Tiers c))).
    split_and!; [apply range_order_map_to_list|apply range_order_first, Hlk|].
    unfold config.GetClusterRules_in. rewrite Hnone.
    replace (config.rangeClusters context (map_to_list (config.Clusters c)))
      with (@None config.ResolvedRules.t).
    2:{ symmetry. apply rangeClusters_None. intros p rules Hin.
        apply elem_of_map_to_list in Hin. apply not_true_is_false. intros Hp.
        exact (Hno p rules (conj Hin Hp)). }
    cbn [config.rangeTiers]. rewrite (rangePatterns_match _ _ _ _ Hm).
    reflexivity.
Qed.

(** On the built-in configuration no action is ever blocked, and
    confirmation is asked for delete, drain and cordon only, whatever the
    context and the pattern matcher. *)
Theorem Default_never_blocks `{Unicode} (context action : string)
    (r : config.ResolvedRules.t) :
  config.GetClusterRules config.Default context r →
  rbac.IsBlocked action r = false ∧
  (rbac.RequiresConfirmation action r = true →
   strings.ToLower action ∈ ["delete"; "drain"; "cordon"]).
Proof.
  intros Hr.
  assert (Hlists : config.ResolvedRules.BlockedActions r = [] ∧
            (config.ResolvedRules.RequireConfirmation r = ["delete"; "drain"] ∨
             config.ResolvedRules.RequireConfirmation r = ["delete"] ∨
             config.ResolvedRules.RequireConfirmation r = [])).
  { apply GetClusterRules_no_exact in Hr; [|apply lookup_empty].
    destruct Hr as [(p & rules & [Hlk _] & _)|[_ Hr]].
    { change (config.Clusters config.Default) with (∅ : gmap string config.ClusterRules.t) in Hlk.
      rewrite lookup_empty in Hlk. discriminate Hlk. }
    destruct Hr as [(t & tier & [Hlk _] & ->)|[_ ->]]; [|auto].
    apply elem_of_list_to_map_2 in Hlk.
    repeat (apply elem_of_cons in Hlk as [[= -> ->]|Hlk]; [auto|]).
    inversion Hlk. }
  destruct Hlists as [Hb Hc]. unfold rbac.IsBlocked, rbac.RequiresConfirmation.
  rewrite Hb. split; [reflexivity|].
  rewrite anyMatch_true. intros (token & Hin & Hm).
  apply matchAction_spec in Hm.
  assert (Htoken : token = "delete" ∨ token = "drain").
  { destruct Hc as [Hc|[Hc|Hc]]; rewrite Hc in Hin; revert Hin;
      by_cases_on_list. }
  destruct Htoken as [-> | ->];
    change (strings.ToLower "delete") with "delete" in Hm;
    change (strings.ToLower "drain") with "drain" in Hm;
    rewrite !elem_of_cons;
    destruct Hm as [Hm|[[Hm Hm']|[[Hm Hm']|[Hm Hm']]]];
    try discriminate Hm; auto.
Qed.

End ResolutionMore.

(** On the built-in configuration a context such as [dev-prod] matches a
    pattern of tier production and one of tier development: it may resolve
    to either. *)
Lemma every_matching_entry_may_win_witness :
  @config.GetClusterRules Reference.starGlob config.Default "dev-prod"
    (config.ResolvedRules.mk "production" ["delete"; "drain"] []) ∧
  @config.GetClusterRules Reference.starGlob config.Default "dev-prod"
    (config.ResolvedRules.mk "development" [] []).
Proof.
  destruct (@every_matching_entry_may_win Reference.starGlob config.Default
              "dev-prod" (lookup_empty _)) as [_ Htiers].
  assert (Hno : ∀ pattern rules,
            ¬ @clusterMatches Reference.starGlob config.Default "dev-prod"
                pattern rules).
  { intros pattern rules [Hlk _].
    change (config.Clusters config.Default)
      with (∅ : gmap string config.ClusterRules.t) in Hlk.
    rewrite lookup_empty in Hlk. discriminate Hlk. }
  split.
  - apply (Htiers Hno "production"
             (config.TierConfig.mk
                ["*-prod"; "*-production"; "prod-*"; "production-*"]
                ["delete"; "drain"] [])).
    split; [vm_compute; reflexivity|].
    exists "*-prod". split; [left|vm_compute; reflexivity].
  - apply (Htiers Hno "development"
             (config.TierConfig.mk
                ["*-dev"; "*-development"; "dev-*"; "development-*";
                 "local*"; "minikube"; "docker-desktop"; "kind-*"] [] [])).
    split; [vm_compute; reflexivity|].
    exists "dev-*". split; [|vm_compute; reflexivity].
    cbn [config.TierConfig.Patterns]. rewrite !elem_of_cons. auto.
Defined.

Lemma Default_never_blocks_witness :
  @rbac.IsBlocked Reference.asciiOnly "delete"
    (config.ResolvedRules.mk "production" ["delete"; "drain"] []) = false.
Proof.
  refine (proj1 (@Default_never_blocks Reference.starGlob Reference.asciiOnly
                   "prod-us-east-1" "delete" _ _)).
  exists (map_to_list (config.Clusters config.Default)),
         (map_to_list (config.Tiers config.Default)).
  split_and!; [apply range_order_map_to_list..|].
  vm_compute. reflexivity.
Defined.

(** ** The namespace of a command *)

Section Namespace.
Context `{UnicodeSpace}.

(** The loop of [GetNamespace] passes over tokens that name no
    namespace. *)
Lemma GetNamespace_loop_skip (before rest : list string) :
  (∀ arg, arg ∈ before → namesNamespace arg = false) →
  kubectl.GetNamespace_loop (before ++ rest) = kubectl.GetNamespace_loop rest.
Proof.
  induction before as [|arg tl IH]; intros Hclean; [reflexivity|].
  rewrite <- app_comm_cons. cbn [kubectl.GetNamespace_loop].
  assert (Harg : namesNamespace arg = false) by (apply Hclean; left).
  unfold namesNamespace in Harg.
  apply orb_false_iff in Harg as [Harg Hlong].
  apply orb_false_iff in Harg as [Harg Hshort].
  rewrite Harg, Hshort, Hlong. apply IH. intros a Ha. apply Hclean. right.
  exact Ha.
Qed.

(** A string starts with what it was built from, and [TrimPrefix] takes
    that away. *)
Lemma HasPrefix_append (p s : string) : strings.HasPrefix (p +:+ s) p = true.
Proof.
  unfold strings.HasPrefix. induction p as [|c p IH].
  - destruct s; reflexivity.
  - change (String.prefix (String c p) (String c p +:+ s))
      with (if Ascii.ascii_dec c c then String.prefix p (p +:+ s) else false).
    destruct (Ascii.ascii_dec c c) as [_|Hne];
      [exact IH|contradiction Hne; reflexivity].
Qed.

Lemma TrimPrefix_append (p s : string) : gostrings.TrimPrefix (p +:+ s) p = s.
Proof.
  unfold gostrings.TrimPrefix. rewrite HasPrefix_append.
  induction p as [|c p IH]; [destruct s; reflexivity|exact IH].
Qed.

(** The first token that names a namespace decides: the token after [-n]
    or [--namespace], or what follows [-n=] or [--namespace=], even the
    empty string. *)
Theorem GetNamespace_first_flag (view : string * Z)
    (before rest : list string) (value : string) :
  (∀ arg, arg ∈ before → namesNamespace arg = false) →
  kubectl.GetNamespace view (before ++ "-n" :: value :: rest) = value ∧
  kubectl.GetNamespace view (before ++ "--namespace" :: value :: rest) = value ∧
  kubectl.GetNamespace view (before ++ ("-n=" +:+ value) :: rest) = value ∧
  kubectl.GetNamespace view (before ++ ("--namespace=" +:+ value) :: rest) = value.
Proof.
  intros Hclean. unfold kubectl.GetNamespace.
  rewrite !GetNamespace_loop_skip by exact Hclean.
  split_and!; [reflexivity..| |].
  - cbn [kubectl.GetNamespace_loop].
    rewrite HasPrefix_append, TrimPrefix_append. reflexivity.
  - cbn [kubectl.GetNamespace_loop].
    rewrite (HasPrefix_append "--namespace="), TrimPrefix_append.
    reflexivity.
Qed.

(** When no token names a namespace, or only a last [-n] or [--namespace]
    without a value, the namespace is the one of the context, or "default";
    it is never empty. *)
Theorem GetNamespace_without_flag (view : string * Z) (args : list string) :
  (∀ arg, arg ∈ args → namesNamespace arg = false) →
  kubectl.GetNamespace view args = contextNamespace view ∧
  kubectl.GetNamespace view (args ++ ["-n"]) = contextNamespace view ∧
  kubectl.GetNamespace view (args ++ ["--namespace"]) = contextNamespace view ∧
  contextNamespace view ≠ "".
Proof.
  intros Hclean. unfold kubectl.GetNamespace.
  rewrite <- (app_nil_r args) at 1.
  rewrite !GetNamespace_loop_skip by exact Hclean.
  split_and!; try reflexivity.
  unfold contextNamespace.
  destruct (view.2 =? 0)%Z; [|discriminate].
  destruct (String.eqb_spec (gostrings.TrimSpace view.1) ""); cbn [negb andb];
    [discriminate|assumption].
Qed.

End Namespace.

Lemma GetNamespace_first_flag_witness :
  @kubectl.GetNamespace Reference.asciiSpaces ("staging", 0%Z)
    ["delete"; "pod"; "-n"; "kube-system"; "--namespace=other"] = "kube-system" ∧
  @kubectl.GetNamespace Reference.asciiSpaces ("staging", 0%Z)
    ["delete"; "pod"; "-n="; "-n"; "kube-system"] = "".
Proof.
  assert (Hclean : ∀ arg, arg ∈ ["delete"; "pod"] → namesNamespace arg = false).
  { intros arg Hin.
    repeat (apply elem_of_cons in Hin as [->|Hin]; [reflexivity|]).
    inversion Hin. }
  split.
  - exact (proj1 (@GetNamespace_first_flag Reference.asciiSpaces ("staging", 0%Z)
                    ["delete"; "pod"] ["--namespace=other"] "kube-system" Hclean)).
  - exact (proj1 (proj2 (proj2 (@GetNamespace_first_flag Reference.asciiSpaces
                    ("staging", 0%Z) ["delete"; "pod"] ["-n"; "kube-system"] ""
                    Hclean)))).
Defined.

Lemma GetNamespace_without_flag_witness :
  @kubectl.GetNamespace Reference.asciiSpaces (" staging
", 0%Z) ["get"; "pods"; "-n"] = "staging" ∧
  @kubectl.GetNamespace Reference.asciiSpaces ("", 1%Z) ["get"; "pods"] = "default".
Proof.
  assert (Hclean : ∀ arg, arg ∈ ["get"; "pods"] → namesNamespace arg = false).
  { intros arg Hin.
    repeat (apply elem_of_cons in Hin as [->|Hin]; [reflexivity|]).
    inversion Hin. }
  split.
  - exact (proj1 (proj2 (@GetNamespace_without_flag Reference.asciiSpaces
                           (" staging
", 0%Z) ["get"; "pods"] Hclean))).
  - exact (proj1 (@GetNamespace_without_flag Reference.asciiSpaces
                    ("", 1%Z) ["get"; "pods"] Hclean)).
Defined.

(** ** Comma-separated lists *)

Lemma trimLeft_startsClean (s : string) :
  startsClean (gostrings.trimLeft s) = true.
Proof.
  induction s as [|c s IH]; [reflexivity|]. cbn [gostrings.trimLeft].
  destruct (gostrings.asciiSpace c) eqn:Hc; [exact IH|].
  cbn [startsClean]. rewrite Hc. reflexivity.
Qed.

Lemma trimLeft_clean (s : string) :
  startsClean s = true → gostrings.trimLeft s = s.
Proof.
  destruct s as [|c s]; [reflexivity|]. cbn [startsClean gostrings.trimLeft].
  destruct (gostrings.asciiSpace c); [discriminate|reflexivity].
Qed.

Lemma trimRight_startsClean (s : string) :
  startsClean s = true → startsClean (gostrings.trimRight s) = true.
Proof.
  destruct s as [|c s]; [reflexivity|]. cbn [startsClean gostrings.trimRight].
  intros Hc%negb_true_iff.
  destruct (gostrings.trimRight s); [rewrite Hc|]; cbn [startsClean];
    rewrite Hc; reflexivity.
Qed.

Lemma trimRight_idempotent (s : string) :
  gostrings.trimRight (gostrings.trimRight s) = gostrings.trimRight s.
Proof.
  induction s as [|c s IH]; [reflexivity|]. cbn [gostrings.trimRight].
  destruct (gostrings.trimRight s) as [|d t] eqn:Ht.
  - destruct (gostrings.asciiSpace c) eqn:Hc; [reflexivity|].
    cbn [gostrings.trimRight]. rewrite Hc. reflexivity.
  - change (gostrings.trimRight (String c (String d t)))
      with (match gostrings.trimRight (String d t) with
            | EmptyString =>
                if gostrings.asciiSpace c then EmptyString else String c EmptyString
            | u => String c u
            end).
    rewrite IH. reflexivity.
Qed.

(** Trimming a trimmed string changes nothing. *)
Lemma trim_idempotent (s : string) :
  gostrings.trimRight (gostrings.trimLeft
    (gostrings.trimRight (gostrings.trimLeft s))) =
  gostrings.trimRight (gostrings.trimLeft s).
Proof.
  rewrite (trimLeft_clean (gostrings.trimRight (gostrings.trimLeft s))).
  - apply trimRight_idempotent.
  - apply trimRight_startsClean, trimLeft_startsClean.
Qed.

Lemma trimLeft_holdsByte (b : ascii) (s : string) :
  holdsByte b s = false → holdsByte b (gostrings.trimLeft s) = false.
Proof.
  induction s as [|c s IH]; [reflexivity|]. cbn [gostrings.trimLeft holdsByte].
  intros [Hc Hs]%orb_false_iff.
  destruct (gostrings.asciiSpace c); [apply IH, Hs|].
  cbn [holdsByte]. rewrite Hc, Hs. reflexivity.
Qed.

Lemma trimRight_holdsByte (b : ascii) (s : string) :
  holdsByte b s = false → holdsByte b (gostrings.trimRight s) = false.
Proof.
  induction s as [|c s IH]; [reflexivity|]. cbn [gostrings.trimRight holdsByte].
  intros [Hc Hs]%orb_false_iff. specialize (IH Hs).
  destruct (gostrings.trimRight s) as [|d t].
  - destruct (gostrings.asciiSpace c); [reflexivity|].
    cbn [holdsByte]. rewrite Hc. reflexivity.
  - cbn [holdsByte] in *. rewrite Hc. exact IH.
Qed.

Lemma trimLeft_isASCII (s : string) :
  strings.isASCII s = true → strings.isASCII (gostrings.trimLeft s) = true.
Proof.
  induction s as [|c s IH]; [reflexivity|]. cbn [gostrings.trimLeft strings.isASCII].
  destruct (strings.geRuneSelf c) eqn:Hc; [discriminate|]. intros Hs.
  destruct (gostrings.asciiSpace c); [apply IH, Hs|].
  cbn [strings.isASCII]. rewrite Hc. exact Hs.
Qed.

Lemma trimRight_isASCII (s : string) :
  strings.isASCII s = true → strings.isASCII (gostrings.trimRight s) = true.
Proof.
  induction s as [|c s IH]; [reflexivity|]. cbn [gostrings.trimRight strings.isASCII].
  destruct (strings.geRuneSelf c) eqn:Hc; [discriminate|]. intros Hs.
  specialize (IH Hs). destruct (gostrings.trimRight s) as [|d t].
  - destruct (gostrings.asciiSpace c); [reflexivity|].
    cbn [strings.isASCII]. rewrite Hc. reflexivity.
  - cbn [strings.isASCII] in *. rewrite Hc. exact IH.
Qed.

(** The pieces [SplitByte] cuts hold no separator, and are ASCII when the
    string is. *)
Lemma SplitByte_pieces (s : string) (sep : ascii) (piece : string) :
  piece ∈ gostrings.SplitByte s sep →
  holdsByte sep piece = false ∧
  (strings.isASCII s = true → strings.isASCII piece = true).
Proof.
  revert piece. induction s as [|c s IH]; intros piece; cbn [gostrings.SplitByte].
  - intros [->|Hin]%elem_of_cons; [split; reflexivity|inversion Hin].
  - cbn [strings.isASCII]. destruct (Ascii.eqb_spec c sep) as [->|Hne].
    + intros [->|Hin]%elem_of_cons; [split; reflexivity|].
      destruct (IH _ Hin) as [Hh Ha]. split; [exact Hh|].
      destruct (strings.geRuneSelf sep); [discriminate|exact Ha].
    + destruct (gostrings.SplitByte s sep) as [|first pieces].
      * intros [->|Hin]%elem_of_cons; [|inversion Hin].
        cbn [holdsByte strings.isASCII].
        rewrite (proj2 (Ascii.eqb_neq c sep) Hne). split; [reflexivity|].
        destruct (strings.geRuneSelf c); [discriminate|reflexivity].
      * intros [->|Hin]%elem_of_cons.
        -- destruct (IH first) as [Hh Ha]; [left|].
           cbn [holdsByte strings.isASCII].
           rewrite (proj2 (Ascii.eqb_neq c sep) Hne), Hh. split; [reflexivity|].
           destruct (strings.geRuneSelf c); [discriminate|exact Ha].
        -- destruct (IH piece) as [Hh Ha]; [right; exact Hin|].
           split; [exact Hh|].
           destruct (strings.geRuneSelf c); [discriminate|exact Ha].
Qed.

(** [SplitByte] undoes [Join] on entries that hold no separator. *)
Lemma SplitByte_whole (s : string) (sep : ascii) :
  holdsByte sep s = false → gostrings.SplitByte s sep = [s].
Proof.
  induction s as [|c s IH]; [reflexivity|]. cbn [holdsByte gostrings.SplitByte].
  intros [Hc Hs]%orb_false_iff. rewrite Hc, (IH Hs). reflexivity.
Qed.

Lemma SplitByte_append (s t : string) (sep : ascii) :
  holdsByte sep s = false →
  gostrings.SplitByte (s +:+ String sep t) sep = s :: gostrings.SplitByte t sep.
Proof.
  induction s as [|c s IH]; cbn [holdsByte].
  - intros _. change ("" +:+ String sep t) with (String sep t).
    cbn [gostrings.SplitByte]. rewrite Ascii.eqb_refl. reflexivity.
  - intros [Hc Hs]%orb_false_iff.
    change (String c s +:+ String sep t) with (String c (s +:+ String sep t)).
    cbn [gostrings.SplitByte]. rewrite Hc, (IH Hs). reflexivity.
Qed.

Lemma SplitByte_Join (l : list string) (sep : ascii) :
  l ≠ [] → (∀ e, e ∈ l → holdsByte sep e = false) →
  gostrings.SplitByte (strings.Join l (String sep "")) sep = l.
Proof.
  induction l as [|e [|e' rest] IH]; intros Hne Hall; [contradiction Hne; reflexivity| |].
  - cbn [strings.Join]. apply SplitByte_whole, Hall. left.
  - change (strings.Join (e :: e' :: rest) (String sep ""))
      with (e +:+ String sep "" +:+ strings.Join (e' :: rest) (String sep "")).
    change (String sep "" +:+ strings.Join (e' :: rest) (String sep ""))
      with (String sep (strings.Join (e' :: rest) (String sep ""))).
    rewrite SplitByte_append by (apply Hall; left).
    rewrite IH; [reflexivity|discriminate|].
    intros x Hin. apply Hall. right. exact Hin.
Qed.

Section CommaSeparated.
Context `{UnicodeSpace}.

(** The loop of [parseCommaSeparated], in closed form. *)
Lemma collectParts_spec (result parts : list string) :
  initpkg.collectParts result parts =
  (result ++ List.filter (λ p, negb (p =? "")%string)
               (List.map gostrings.TrimSpace parts))%list.
Proof.
  revert result. induction parts as [|p rest IH]; intros result.
  - cbn. rewrite app_nil_r. reflexivity.
  - cbn [initpkg.collectParts List.map List.filter].
    destruct (negb (gostrings.TrimSpace p =? "")%string); rewrite IH.
    + rewrite <- app_assoc. reflexivity.
    + reflexivity.
Qed.

(** The two copies of [parseCommaSeparated] agree. *)
Lemma parseCommaSeparated_copies (input : string) :
  cli.parseCommaSeparated input = initpkg.parseCommaSeparated input.
Proof.
  unfold cli.parseCommaSeparated, initpkg.parseCommaSeparated.
  assert (Hloop : ∀ parts result,
            cli.collectParts result parts = initpkg.collectParts result parts).
  { induction parts as [|p rest IH]; intros result; [reflexivity|].
    cbn [cli.collectParts initpkg.collectParts].
    destruct (negb _); apply IH. }
  apply Hloop.
Qed.

(** [parseCommaSeparated] returns no empty entry; on an ASCII input every
    entry is plain: without a comma and without white space at either end. *)
Theorem parseCommaSeparated_entries (input e : string) :
  e ∈ initpkg.parseCommaSeparated input →
  e ≠ "" ∧ (strings.isASCII input = true → plainEntry e).
Proof.
  unfold initpkg.parseCommaSeparated. rewrite collectParts_spec. cbn [app].
  rewrite list_elem_of_In, filter_In, in_map_iff.
  intros [(piece & <- & Hin) Hne]. apply list_elem_of_In in Hin.
  apply negb_true_iff in Hne.
  assert (Hnonempty : gostrings.TrimSpace piece ≠ "").
  { intros Heq. rewrite Heq in Hne. discriminate Hne. }
  split; [exact Hnonempty|]. intros Hascii.
  destruct (SplitByte_pieces _ _ _ Hin) as [Hcomma Hpiece].
  specialize (Hpiece Hascii). revert Hnonempty.
  unfold gostrings.TrimSpace. rewrite Hpiece. intros Hnonempty.
  split_and!.
  - apply trimRight_isASCII, trimLeft_isASCII, Hpiece.
  - exact Hnonempty.
  - apply trimRight_holdsByte, trimLeft_holdsByte, Hcomma.
  - apply trim_idempotent.
Qed.

(** [parseCommaSeparated] reads back a list of plain entries joined by
    commas, the empty list included. *)
Theorem parseCommaSeparated_Join (l : list string) :
  (∀ e, e ∈ l → plainEntry e) →
  initpkg.parseCommaSeparated (strings.Join l ",") = l.
Proof.
  intros Hplain. unfold initpkg.parseCommaSeparated. rewrite collectParts_spec.
  cbn [app]. destruct l as [|e rest]; [reflexivity|].
  rewrite SplitByte_Join;
    [|discriminate|intros x Hx; apply (Hplain x Hx)].
  induction (e :: rest) as [|x l IH]; [reflexivity|].
  cbn [List.map List.filter].
  destruct (Hplain x) as (Ha & Hne & _ & Htrim); [left|].
  assert (Hx : gostrings.TrimSpace x = x)
    by (unfold gostrings.TrimSpace; rewrite Ha; exact Htrim).
  rewrite Hx. destruct (String.eqb_spec x ""); [contradiction|].
  cbn [negb]. rewrite IH; [reflexivity|].
  intros y Hy. apply Hplain. right. exact Hy.
Qed.

End CommaSeparated.

Lemma parseCommaSeparated_entries_witness :
  "*-prd" ∈ @initpkg.parseCommaSeparated Reference.asciiSpaces "prod-*, *-prd ,," ∧
  plainEntry "*-prd".
Proof.
  assert (Hin : "*-prd" ∈ @initpkg.parseCommaSeparated Reference.asciiSpaces
                            "prod-*, *-prd ,,").
  { assert (Hrun : @initpkg.parseCommaSeparated Reference.asciiSpaces
                     "prod-*, *-prd ,," = ["prod-*"; "*-prd"])
      by (vm_compute; reflexivity).
    rewrite Hrun. right. left. }
  split; [exact Hin|].
  exact (proj2 (@parseCommaSeparated_entries Reference.asciiSpaces _ _ Hin)
           eq_refl).
Defined.

Lemma parseCommaSeparated_Join_witness :
  @initpkg.parseCommaSeparated Reference.asciiSpaces
    (strings.Join (initpkg.ProdPatterns initpkg.DefaultOptions) ",") =
  initpkg.ProdPatterns initpkg.DefaultOptions.
Proof.
  apply (@parseCommaSeparated_Join Reference.asciiSpaces).
  intros e He. cbn [initpkg.ProdPatterns initpkg.DefaultOptions] in He.
  repeat (apply elem_of_cons in He as [->|He];
          [split_and!; [reflexivity|discriminate|reflexivity..]|]).
  inversion He.
Defined.

(** ** The [init] command *)

Section Init.
Context `{UnicodeSpace}.

Lemma reported_weaken (opts0 opts1 : initpkg.Options)
    (args rest : list string) (r : cli.Parsed) :
  reported opts1 rest r →
  (∀ x, x ∈ rest → x ∈ args) →
  (initpkg.Force opts1 = true →
   initpkg.Force opts0 = true ∨ "--force" ∈ args ∨ "-f" ∈ args) →
  (initpkg.NonInteractive opts1 = true →
   initpkg.NonInteractive opts0 = true ∨
   "--non-interactive" ∈ args ∨ "-n" ∈ args) →
  reported opts0 args r.
Proof.
  intros Hr Hsub Hf Hn. destruct r as [|flag|opts]; cbn [reported] in *.
  - destruct Hr; auto.
  - destruct Hr; auto.
  - destruct Hr as [Hrf Hrn]. split; intros Hset.
    + destruct (Hrf Hset) as [H1|[H1|H1]]; auto.
    + destruct (Hrn Hset) as [H1|[H1|H1]]; auto.
Qed.

(** The flag loop of [handleInit] reports nothing the arguments do not
    hold. *)
Lemma parseFlags_reported (n : nat) :
  ∀ args opts0, (List.length args ≤ n)%nat →
    reported opts0 args (cli.parseFlags opts0 args).
Proof.
  induction n as [|n IH]; intros [|arg rest] opts0 Hlen;
    try (cbn [reported cli.parseFlags]; tauto);
    [cbn [List.length] in Hlen; lia|].
  cbn [List.length] in Hlen.
  assert (Hrest : ∀ x, x ∈ rest → x ∈ arg :: rest) by (intros x Hx; right; exact Hx).
  assert (Htail : ∀ value rest' x, rest = value :: rest' →
            x ∈ rest' → x ∈ arg :: rest).
  { intros value rest' x -> Hx. right. right. exact Hx. }
  assert (Hone : ∀ opts1, 
            (initpkg.Force opts1 = true →
             initpkg.Force opts0 = true ∨ "--force" ∈ arg :: rest ∨ "-f" ∈ arg :: rest) →
            (initpkg.NonInteractive opts1 = true →
             initpkg.NonInteractive opts0 = true ∨
             "--non-interactive" ∈ arg :: rest ∨ "-n" ∈ arg :: rest) →
            reported opts0 (arg :: rest) (cli.parseFlags opts1 rest)).
  { intros opts1 Hf Hn. apply (reported_weaken opts0 opts1 _ rest); auto.
    apply IH. lia. }
  assert (Htwo : ∀ opts1 : string → initpkg.Options,
            (∀ v, initpkg.Force (opts1 v) = initpkg.Force opts0) →
            (∀ v, initpkg.NonInteractive (opts1 v) = initpkg.NonInteractive opts0) →
            reported opts0 (arg :: rest)
              match rest with
              | value :: rest' => cli.parseFlags (opts1 value) rest'
              | [] => cli.Options opts0
              end).
  { intros opts1 Hf Hn. destruct rest as [|value rest'].
    - cbn [reported]. tauto.
    - apply (reported_weaken opts0 (opts1 value) _ rest').
      + apply IH. cbn [List.length] in Hlen. lia.
      + intros x Hx. right. right. exact Hx.
      + rewrite Hf. auto.
      + rewrite Hn. auto. }
  cbn [cli.parseFlags].
  destruct ((arg =? "--help")%string || (arg =? "-h")%string) eqn:Hhelp.
  { cbn [reported].
    apply orb_true_iff in Hhelp as [->%String.eqb_eq| ->%String.eqb_eq];
      [left|right]; left. }
  destruct ((arg =? "--non-interactive")%string || (arg =? "-n")%string) eqn:Hni.
  { apply Hone; cbn [initpkg.Force initpkg.NonInteractive]; [auto|].
    intros _. right.
    apply orb_true_iff in Hni as [->%String.eqb_eq| ->%String.eqb_eq];
      [left|right]; left. }
  destruct ((arg =? "--force")%string || (arg =? "-f")%string) eqn:Hforce.
  { apply Hone; cbn [initpkg.Force initpkg.NonInteractive]; [|auto].
    intros _. right.
    apply orb_true_iff in Hforce as [->%String.eqb_eq| ->%String.eqb_eq];
      [left|right]; left. }
  destruct ((arg =? "--output")%string || (arg =? "-o")%string).
  { apply (Htwo (λ value, initpkg.mkOptions _ _ _ _ _ _ _ _ value)); reflexivity. }
  destruct (arg =? "--prod-patterns")%string.
  { apply (Htwo (λ value, initpkg.mkOptions _ _ (cli.parseCommaSeparated value)
                            _ _ _ _ _ _)); reflexivity. }
  destruct (arg =? "--staging-patterns")%string.
  { apply (Htwo (λ value, initpkg.mkOptions _ _ _ (cli.parseCommaSeparated value)
                            _ _ _ _ _)); reflexivity. }
  destruct (arg =? "--dev-patterns")%string.
  { apply (Htwo (λ value, initpkg.mkOptions _ _ _ _ (cli.parseCommaSeparated value)
                            _ _ _ _)); reflexivity. }
  destruct (arg =? "--prod-actions")%string.
  { apply (Htwo (λ value, initpkg.mkOptions _ _ _ _ _ (cli.parseCommaSeparated value)
                            _ _ _)); reflexivity. }
  destruct (arg =? "--staging-actions")%string.
  { apply (Htwo (λ value, initpkg.mkOptions _ _ _ _ _ _
                            (cli.parseCommaSeparated value) _ _)); reflexivity. }
  destruct (arg =? "--blocked-actions")%string.
  { apply (Htwo (λ value, initpkg.mkOptions _ _ _ _ _ _ _
                            (cli.parseCommaSeparated value) _)); reflexivity. }
  destruct (strings.HasPrefix arg "-") eqn:Hflag.
  { cbn [reported]. split; [left|exact Hflag]. }
  apply Hone; auto.
Qed.

(** What the flag loop of [handleInit] reports comes from the arguments:
    help only from [--help] or [-h], an unknown flag only from a token that
    starts with [-], and the switches [Force] and [NonInteractive] only from
    their flags. *)
Theorem parseFlags_from_arguments (args : list string) :
  match cli.parseFlags initpkg.DefaultOptions args with
  | cli.Help => "--help" ∈ args ∨ "-h" ∈ args
  | cli.UnknownFlag flag => flag ∈ args ∧ strings.HasPrefix flag "-" = true
  | cli.Options opts =>
      (initpkg.Force opts = true → "--force" ∈ args ∨ "-f" ∈ args) ∧
      (initpkg.NonInteractive opts = true →
       "--non-interactive" ∈ args ∨ "-n" ∈ args)
  end.
Proof.
  pose proof (parseFlags_reported (List.length args) args
                initpkg.DefaultOptions (le_n _)) as Hr.
  destruct (cli.parseFlags initpkg.DefaultOptions args) as [|flag|opts];
    cbn [reported] in Hr; [exact Hr..|].
  destruct Hr as [Hf Hn]. split; intros Hset.
  - destruct (Hf Hset) as [Hd|Hd]; [discriminate Hd|exact Hd].
  - destruct (Hn Hset) as [Hd|Hd]; [discriminate Hd|exact Hd].
Qed.

(** [Run] writes to the path given, or to the default one; over a file that
    exists only when forced or after the user agreed; and, when it does not
    ask, the configuration built from the options. *)
Lemma Run_writes (w : initpkg.World) (opts : initpkg.Options)
    (cfg : config.Config) (path : string) :
  initpkg.WriteConfig cfg path ∈ (initpkg.Run w (Some opts)).1 →
  path = (if (initpkg.OutputPath opts =? "")%string
          then initpkg.ConfigPath w else initpkg.OutputPath opts) ∧
  (initpkg.exists_ w path = true →
   initpkg.Force opts = true ∨
   (initpkg.NonInteractive opts = false ∧
    initpkg.promptYesNo w "Do you want to overwrite it?" false = true)) ∧
  (initpkg.NonInteractive opts = true →
   cfg = initpkg.buildConfigFromOptions opts).
Proof.
  unfold initpkg.Run.
  change (default initpkg.DefaultOptions (Some opts)) with opts. cbn zeta.
  set (outputPath := if (initpkg.OutputPath opts =? "")%string
                     then initpkg.ConfigPath w else initpkg.OutputPath opts).
  destruct (initpkg.exists_ w outputPath) eqn:Hex;
    destruct (initpkg.Force opts) eqn:Hforce;
    destruct (initpkg.NonInteractive opts) eqn:Hni;
    destruct (initpkg.promptYesNo w "Do you want to overwrite it?" false) eqn:Hask;
    cbn [andb negb fst snd app];
    try destruct (initpkg.runInteractiveInit w opts) as [cfg'|err];
    cbn [fst snd app];
    try match goal with
        | |- context [initpkg.writeConfig w ?c ?p] =>
            destruct (initpkg.writeConfig w c p)
        end;
    cbn [fst snd app];
    rewrite ?elem_of_cons, ?elem_of_nil;
    intros Hin; decompose [or] Hin; try discriminate; try contradiction;
    match goal with
    | Heq : initpkg.WriteConfig _ _ = initpkg.WriteConfig _ _ |- _ =>
        injection Heq as -> ->
    end;
    (split_and!; [reflexivity| |]; intros; try discriminate; auto; congruence).
Qed.

(** [init] writes over a configuration file that exists only when [--force]
    or [-f] was given, or after the user agreed to overwrite it. *)
Theorem init_overwrites_only_when_allowed (w : initpkg.World)
    (args : list string) (cfg : config.Config) (path : string) :
  cli.Init (initpkg.WriteConfig cfg path) ∈ (cli.handleInit w args).1 →
  initpkg.exists_ w path = true →
  "--force" ∈ args ∨ "-f" ∈ args ∨
  initpkg.promptYesNo w "Do you want to overwrite it?" false = true.
Proof.
  unfold cli.handleInit. pose proof (parseFlags_from_arguments args) as Hfrom.
  destruct (cli.parseFlags initpkg.DefaultOptions args) as [|flag|opts];
    cbn [fst]; [by_cases_on_list..|].
  destruct Hfrom as [Hforce _].
  assert (Hwrites : cli.Init (initpkg.WriteConfig cfg path) ∈
                      cli.Init <$> (initpkg.Run w (Some opts)).1 →
            initpkg.exists_ w path = true →
            "--force" ∈ args ∨ "-f" ∈ args ∨
            initpkg.promptYesNo w "Do you want to overwrite it?" false = true).
  { intros (e & [= <-] & Hin)%list_elem_of_fmap Hex.
    destruct (Run_writes w opts cfg path Hin) as (_ & Hallowed & _).
    destruct (Hallowed Hex) as [Hf|[_ Hask]]; [|auto].
    destruct (Hforce Hf); auto. }
  destruct (initpkg.Run w (Some opts)) as [events [err|]]; cbn [fst] in *.
  - rewrite elem_of_app. intros [Hin|Hin]; [exact (Hwrites Hin)|].
    revert Hin. by_cases_on_list.
  - exact Hwrites.
Qed.

End Init.

Lemma init_overwrites_only_when_allowed_witness :
  let args := ["-n"; "--prod-patterns"; "prod-*, *-prd"; "-f"; "-o"; "/tmp/kctl.yaml"] in
  let cfg :=
    initpkg.buildConfigFromOptions
      (initpkg.mkOptions true true ["prod-*"; "*-prd"]
         (initpkg.StagingPatterns initpkg.DefaultOptions)
         (initpkg.DevPatterns initpkg.DefaultOptions)
         ["delete"; "drain"] ["delete"] [] "/tmp/kctl.yaml") in
  cli.Init (initpkg.WriteConfig cfg "/tmp/kctl.yaml") ∈
    (@cli.handleInit Reference.asciiSpaces Reference.initWorld args).1 ∧
  ("--force" ∈ args ∨ "-f" ∈ args ∨
   initpkg.promptYesNo Reference.initWorld "Do you want to overwrite it?" false
     = true).
Proof.
  cbn zeta.
  assert (Hrun : @cli.handleInit Reference.asciiSpaces Reference.initWorld
                   ["-n"; "--prod-patterns"; "prod-*, *-prd"; "-f"; "-o";
                    "/tmp/kctl.yaml"] =
            ([cli.Init
                (initpkg.WriteConfig
                   (initpkg.buildConfigFromOptions
                      (initpkg.mkOptions true true ["prod-*"; "*-prd"]
                         (initpkg.StagingPatterns initpkg.DefaultOptions)
                         (initpkg.DevPatterns initpkg.DefaultOptions)
                         ["delete"; "drain"] ["delete"] [] "/tmp/kctl.yaml"))
                   "/tmp/kctl.yaml");
              cli.Init (initpkg.PrintSuccess
                          "Config file created at /tmp/kctl.yaml")], 0%Z))
    by (vm_compute; reflexivity).
  assert (Hin : cli.Init
                  (initpkg.WriteConfig
                     (initpkg.buildConfigFromOptions
                        (initpkg.mkOptions true true ["prod-*"; "*-prd"]
                           (initpkg.StagingPatterns initpkg.DefaultOptions)
                           (initpkg.DevPatterns initpkg.DefaultOptions)
                           ["delete"; "drain"] ["delete"] [] "/tmp/kctl.yaml"))
                     "/tmp/kctl.yaml") ∈
                (@cli.handleInit Reference.asciiSpaces Reference.initWorld
                   ["-n"; "--prod-patterns"; "prod-*, *-prd"; "-f"; "-o";
                    "/tmp/kctl.yaml"]).1)
    by (rewrite Hrun; left).
  split; [exact Hin|].
  exact (@init_overwrites_only_when_allowed Reference.asciiSpaces
           Reference.initWorld _ _ _ Hin eq_refl).
Defined.

(** Without [--force] the non-interactive [init] leaves an existing file
    alone and exits with status 1; the value after [-o] is taken as the
    path even when it looks like a flag. *)
Example init_edge_cases :
  let run := @cli.handleInit Reference.asciiSpaces Reference.initWorld in
  run ["-n"; "-o"; "--force"] =
    ([cli.PrintError
        "config file already exists at --force (use --force to overwrite)"],
     1%Z) ∧
  run ["-n"; "-x"] =
    ([cli.PrintError "Unknown flag: -x"; cli.PrintInitUsage], 1%Z) ∧
  run ["extra"; "-f"; "--output"] = run ["-f"].
Proof. vm_compute. repeat split. Qed.

(** The non-interactive [init] with its default options builds the built-in
    configuration. *)
Example buildConfigFromOptions_default :
  initpkg.buildConfigFromOptions initpkg.DefaultOptions = config.Default.
Proof. vm_compute. reflexivity. Qed.

(** ** The configuration [init] builds *)

(** The tiers of the configuration built from options: the three standard
    names, each with its patterns and no blocked action. *)
Lemma buildConfigFromOptions_tiers (opts : initpkg.Options)
    (tierName : string) (tier : config.TierConfig.t) :
  config.Tiers (initpkg.buildConfigFromOptions opts) !! tierName = Some tier →
  tierName ∈ ["production"; "staging"; "development"] ∧
  config.TierConfig.BlockedActions tier = [] ∧
  config.TierConfig.Patterns tier ≠ [].
Proof.
  unfold initpkg.buildConfigFromOptions. cbn [config.Tiers].
  destruct (initpkg.ProdPatterns opts) as [|p1 ps1] eqn:Hp;
    destruct (initpkg.StagingPatterns opts) as [|p2 ps2] eqn:Hs;
    destruct (initpkg.DevPatterns opts) as [|p3 ps3] eqn:Hd;
    rewrite ?lookup_insert; repeat case_decide; subst;
    rewrite ?lookup_empty; intros Hlk; try discriminate Hlk;
    injection Hlk as <-; cbn; rewrite !elem_of_cons;
    (split_and!; [auto|reflexivity|discriminate]).
Qed.

Section BuiltConfig.
Context `{PatternLib} `{Unicode}.

(** In the configuration [init] builds from options, the blocked actions
    are those of the defaults only: on a context that matches a pattern of
    a tier nothing is blocked, and an action is blocked only on a context
    that resolves to tier "default". *)
Theorem built_config_blocks_outside_tiers_only (opts : initpkg.Options)
    (context action : string) (r : config.ResolvedRules.t) :
  config.GetClusterRules (initpkg.buildConfigFromOptions opts) context r →
  ((∃ tierName tier,
      tierMatches (initpkg.buildConfigFromOptions opts) context tierName tier) →
   rbac.IsBlocked action r = false) ∧
  (rbac.IsBlocked action r = true →
   config.ResolvedRules.Tier r = "default" ∧
   config.ResolvedRules.BlockedActions r = initpkg.BlockedActions opts).
Proof.
  intros Hr.
  apply GetClusterRules_no_exact in Hr; [|apply lookup_empty].
  destruct Hr as [(p & rules & [Hlk _] & _)|[_ Hr]].
  { change (config.Clusters (initpkg.buildConfigFromOptions opts))
      with (∅ : gmap string config.ClusterRules.t) in Hlk.
    rewrite lookup_empty in Hlk. discriminate Hlk. }
  destruct Hr as [(t & tier & [Hlk _] & ->)|[Hno ->]].
  - apply buildConfigFromOptions_tiers in Hlk as (_ & Hb & _).
    unfold rbac.IsBlocked. cbn [config.ofTier config.ResolvedRules.BlockedActions].
    rewrite Hb. split; [reflexivity|discriminate].
  - split.
    + intros (t & tier & Hm). destruct (Hno t tier Hm).
    + intros _. split; reflexivity.
Qed.

End BuiltConfig.

Lemma built_config_blocks_outside_tiers_only_witness :
  let opts := initpkg.mkOptions true false ["prod-*"] [] [] ["delete"] [] ["exec"] "" in
  @rbac.IsBlocked Reference.asciiOnly "exec"
    (config.ResolvedRules.mk "production" ["delete"] []) = false ∧
  @config.GetClusterRules Reference.starGlob
    (initpkg.buildConfigFromOptions opts) "prod-east"
    (config.ResolvedRules.mk "production" ["delete"] []).
Proof.
  cbn zeta.
  assert (Hr : @config.GetClusterRules Reference.starGlob
                 (initpkg.buildConfigFromOptions
                    (initpkg.mkOptions true false ["prod-*"] [] [] ["delete"] []
                       ["exec"] ""))
                 "prod-east" (config.ResolvedRules.mk "production" ["delete"] [])).
  { eexists (map_to_list _), (map_to_list _).
    split_and!; [apply range_order_map_to_list..|].
    vm_compute. reflexivity. }
  split; [|exact Hr].
  refine (proj1 (@built_config_blocks_outside_tiers_only Reference.starGlob
                   Reference.asciiOnly _ "prod-east" "exec" _ Hr) _).
  exists "production", (config.TierConfig.mk ["prod-*"] ["delete"] []).
  split; [vm_compute; reflexivity|].
  exists "prod-*". split; [left|vm_compute; reflexivity].
Defined.

(** ** The contexts kubectl lists *)

Section Contexts.
Context `{UnicodeSpace}.

(** The loop of [GetAllContexts], in closed form. *)
Lemma collectLines_spec (contexts lines : list string) :
  kubectl.collectLines contexts lines =
  (contexts ++ List.filter (λ line, negb (line =? "")%string)
                 (List.map gostrings.TrimSpace lines))%list.
Proof.
  revert contexts. induction lines as [|line rest IH]; intros contexts.
  - cbn. rewrite app_nil_r. reflexivity.
  - cbn [kubectl.collectLines List.map List.filter].
    destruct (negb (gostrings.TrimSpace line =? "")%string); rewrite IH.
    + rewrite <- app_assoc. reflexivity.
    + reflexivity.
Qed.

(** [GetAllContexts] fails exactly when kubectl exits with a status other
    than 0; otherwise it returns no empty name, and from an ASCII listing
    names without a line feed and without white space at either end. *)
Theorem GetAllContexts_names (listing : string * Z) :
  match kubectl.GetAllContexts listing with
  | inr _ => listing.2 ≠ 0%Z
  | inl contexts =>
      listing.2 = 0%Z ∧
      ∀ name, name ∈ contexts →
        name ≠ "" ∧
        (strings.isASCII listing.1 = true →
         holdsByte "010" name = false ∧
         gostrings.trimRight (gostrings.trimLeft name) = name)
  end.
Proof.
  unfold kubectl.GetAllContexts.
  destruct (Z.eqb_spec listing.2 0) as [Hz|Hnz]; cbn [negb]; [|exact Hnz].
  split; [exact Hz|]. intros name. rewrite collectLines_spec. cbn [app].
  rewrite list_elem_of_In, filter_In, in_map_iff.
  intros [(line & <- & Hin) Hne]. apply list_elem_of_In in Hin.
  apply negb_true_iff in Hne.
  assert (Hnonempty : gostrings.TrimSpace line ≠ "").
  { intros Heq. rewrite Heq in Hne. discriminate Hne. }
  split; [exact Hnonempty|]. intros Hascii.
  assert (Hout : strings.isASCII (gostrings.TrimSpace listing.1) = true).
  { unfold gostrings.TrimSpace. rewrite Hascii.
    apply trimRight_isASCII, trimLeft_isASCII, Hascii. }
  destruct (SplitByte_pieces _ _ _ Hin) as [Hfeed Hline].
  specialize (Hline Hout).
  assert (Htrim : gostrings.TrimSpace line =
                    gostrings.trimRight (gostrings.trimLeft line))
    by (unfold gostrings.TrimSpace; rewrite Hline; reflexivity).
  rewrite Htrim. split.
  - apply trimRight_holdsByte, trimLeft_holdsByte, Hfeed.
  - apply trim_idempotent.
Qed.

End Contexts.

(** The listing of two contexts, with blank lines and stray spaces. *)
Example GetAllContexts_example :
  @kubectl.GetAllContexts Reference.asciiSpaces
    ("prod-us-east-1
  minikube 

", 0%Z) = inl ["prod-us-east-1"; "minikube"] ∧
  @kubectl.GetAllContexts Reference.asciiSpaces ("", 0%Z) = inl [] ∧
  @kubectl.GetAllContexts Reference.asciiSpaces ("prod", 1%Z) =
    inr "failed to get contexts".
Proof. vm_compute. repeat split. Qed.

(** ** The confirmation prompt *)

Lemma asciiSpace_lowerByte (c : ascii) :
  gostrings.asciiSpace (strings.lowerByte c) = gostrings.asciiSpace c.
Proof.
  destruct c as [[] [] [] [] [] [] [] []]; reflexivity.
Qed.

Lemma trimLeft_lowerBytes (s : string) :
  gostrings.trimLeft (strings.lowerBytes s) =
  strings.lowerBytes (gostrings.trimLeft s).
Proof.
  induction s as [|c s IH]; [reflexivity|].
  cbn [strings.lowerBytes gostrings.trimLeft]. rewrite asciiSpace_lowerByte.
  destruct (gostrings.asciiSpace c); [exact IH|reflexivity].
Qed.

Lemma trimRight_lowerBytes (s : string) :
  gostrings.trimRight (strings.lowerBytes s) =
  strings.lowerBytes (gostrings.trimRight s).
Proof.
  induction s as [|c s IH]; [reflexivity|].
  cbn [strings.lowerBytes gostrings.trimRight]. rewrite IH, asciiSpace_lowerByte.
  destruct (gostrings.trimRight s); cbn [strings.lowerBytes];
    [destruct (gostrings.asciiSpace c)|]; reflexivity.
Qed.

Lemma lowerBytes_isASCII (s : string) :
  strings.isASCII s = true → strings.isASCII (strings.lowerBytes s) = true.
Proof.
  induction s as [|c s IH]; [reflexivity|].
  cbn [strings.lowerBytes strings.isASCII].
  assert (Hc : strings.geRuneSelf (strings.lowerByte c) = strings.geRuneSelf c)
    by (destruct c as [[] [] [] [] [] [] [] []]; reflexivity).
  rewrite Hc. destruct (strings.geRuneSelf c); [discriminate|exact IH].
Qed.

Section Prompt.
Context `{Unicode} `{UnicodeSpace}.

(** [PromptConfirmation] confirms only when standard input is a terminal
    and a line was read; an ASCII line confirms exactly when, white space at
    its ends removed and letters lowered, it is "y" or "yes". *)
Theorem PromptConfirmation_confirms (isStdinTerminal : bool)
    (line : option string) :
  (output.PromptConfirmation isStdinTerminal line = true →
   isStdinTerminal = true ∧ ∃ response, line = Some response) ∧
  (∀ response, strings.isASCII response = true →
     (output.PromptConfirmation true (Some response) = true ↔
      strings.lowerBytes (gostrings.trimRight (gostrings.trimLeft response))
        ∈ ["y"; "yes"])).
Proof.
  split.
  - unfold output.PromptConfirmation.
    destruct isStdinTerminal; cbn [negb]; [|discriminate].
    destruct line as [response|]; [eauto|discriminate].
  - intros response Hascii. unfold output.PromptConfirmation. cbn [negb].
    rewrite (ToLower_ascii response Hascii).
    unfold gostrings.TrimSpace. rewrite (lowerBytes_isASCII _ Hascii).
    rewrite trimLeft_lowerBytes, trimRight_lowerBytes.
    rewrite orb_true_iff, !String.eqb_eq, !elem_of_cons, elem_of_nil. tauto.
Qed.

End Prompt.

(** Answers at the prompt. *)
Example PromptConfirmation_answers :
  let ask := @output.PromptConfirmation Reference.asciiOnly Reference.asciiSpaces in
  ask true (Some "  YeS
") = true ∧ ask true (Some "Y
") = true ∧
  ask true (Some "
") = false ∧ ask true (Some "yes please") = false ∧
  ask false (Some "y") = false ∧ ask true None = false.
Proof. vm_compute. repeat split. Qed.

(** ** Blocking, seen from [main] *)

Section Blocking.
Context `{Unicode} `{PatternLib}.

(** When [main] reports an action as blocked, the action is the one
    classified from the arguments without [--yes] and [-y], the exit status
    is 1, and there was neither a prompt nor a run of kubectl. *)
Theorem main_blocked_exits (w : main.World) (args : list string)
    (action cluster reason : string) :
  main.PrintBlocked action cluster reason ∈ (main.main w args).1 →
  action = rbac.DetectAction (main.extractYes false [] args).2 ∧
  main.GetCurrentContext w = inl cluster ∧
  (main.main w args).2 = 1%Z ∧
  (∀ a, main.Execute a ∉ (main.main w args).1) ∧
  (∀ p, main.PromptConfirmation p ∉ (main.main w args).1).
Proof.
  assert (Hw : ∀ e, e ∈ loadWarning w → ∃ m, e = main.PrintWarning m)
    by apply loadWarning_only_warns.
  destruct (main_cases w args)
    as [(_ & _ & _ & Hno)|[(msg & _ & ->)|(context & Hctx & ->)]]; cbn [fst snd].
  - intros Hin. destruct (Hno _ _ _ Hin).
  - rewrite elem_of_app. intros [Hin|Hin].
    + apply Hw in Hin as [m Hm]. discriminate Hm.
    + revert Hin. by_cases_on_list.
  - rewrite guarded_unfold.
    destruct (enforce_cases w context (main.extractYes false [] args).2
                (main.extractYes false [] args).1
                (rbac.DetectAction (main.extractYes false [] args).2)
                (config.GetClusterRules_in
                   (main.clusterOrder w (config.Clusters (loadedConfig w)))
                   (main.tierOrder w (config.Tiers (loadedConfig w)))
                   (loadedConfig w) context))
      as [(r & ->)|[(_ & _ & hd & s1 & s2 & -> & -> & [m1 ->] & [m2 ->])
         |[(_ & _ & hd & s1 & s2 & -> & -> & [m1 ->] & [m2 ->])| ->]]];
      cbn [fst snd]; rewrite elem_of_app; intros [Hin|Hin];
      try (apply Hw in Hin as [m Hm]; discriminate Hm);
      try (exfalso; revert Hin; by_cases_on_list).
    assert (Heq : main.PrintBlocked action cluster reason =
                  main.PrintBlocked
                    (rbac.DetectAction (main.extractYes false [] args).2)
                    context r)
      by (revert Hin; by_cases_on_list).
    injection Heq as -> -> ->.
    split_and!; [reflexivity|exact Hctx|reflexivity|..];
      intros x; rewrite elem_of_app; intros [Hx|Hx];
      try (apply Hw in Hx as [m Hm]; discriminate Hm);
      revert Hx; by_cases_on_list.
Qed.

(** Rule lists count as sets, and more tokens never allow more: an action
    blocked, or in need of confirmation, stays so under every list that
    holds the tokens of the first. *)
Theorem more_rules_never_allow (action : string)
    (r1 r2 : config.ResolvedRules.t) :
  (∀ token, token ∈ config.ResolvedRules.BlockedActions r1 →
            token ∈ config.ResolvedRules.BlockedActions r2) →
  (∀ token, token ∈ config.ResolvedRules.RequireConfirmation r1 →
            token ∈ config.ResolvedRules.RequireConfirmation r2) →
  (rbac.IsBlocked action r1 = true → rbac.IsBlocked action r2 = true) ∧
  (rbac.RequiresConfirmation action r1 = true →
   rbac.RequiresConfirmation action r2 = true).
Proof.
  intros Hb Hc. unfold rbac.IsBlocked, rbac.RequiresConfirmation.
  rewrite !anyMatch_true.
  split; intros (token & Hin & Hm); exists token; auto.
Qed.

End Blocking.

Lemma main_blocked_exits_witness :
  let w := withLoad (Reference.world "special-prod") (inl Reference.priorityConfig) in
  let run := @main.main Reference.asciiOnly Reference.starGlob w
               ["delete"; "pod"; "foo"; "--yes"] in
  main.PrintBlocked "delete" "special-prod"
    "Action 'delete' is configured as blocked for tier 'special'" ∈ run.1 ∧
  run.2 = 1%Z ∧ ∀ a, main.Execute a ∉ run.1.
Proof.
  cbn zeta.
  assert (Hin : main.PrintBlocked "delete" "special-prod"
                  "Action 'delete' is configured as blocked for tier 'special'" ∈
            (@main.main Reference.asciiOnly Reference.starGlob
               (withLoad (Reference.world "special-prod")
                  (inl Reference.priorityConfig))
               ["delete"; "pod"; "foo"; "--yes"]).1).
  { assert (Hrun : @main.main Reference.asciiOnly Reference.starGlob
                     (withLoad (Reference.world "special-prod")
                        (inl Reference.priorityConfig))
                     ["delete"; "pod"; "foo"; "--yes"] =
              ([main.PrintBlocked "delete" "special-prod"
                  "Action 'delete' is configured as blocked for tier 'special'"],
               1%Z)) by (vm_compute; reflexivity).
    rewrite Hrun. left. }
  split; [exact Hin|].
  destruct (@main_blocked_exits Reference.asciiOnly Reference.starGlob _ _ _ _ _
              Hin) as (_ & _ & Hstatus & Hexec & _).
  split; [exact Hstatus|exact Hexec].
Defined.

Lemma more_rules_never_allow_witness :
  @rbac.IsBlocked Reference.asciiOnly "patch"
    (config.ResolvedRules.mk "production" [] ["delete"; "edit"; "delete"]) = true.
Proof.
  refine (proj1 (@more_rules_never_allow Reference.asciiOnly "patch"
                   (config.ResolvedRules.mk "staging" [] ["edit"])
                   (config.ResolvedRules.mk "production" []
                      ["delete"; "edit"; "delete"]) _ _) eq_refl).
  - intros token Hin. cbn in *. revert Hin. rewrite !elem_of_cons. tauto.
  - intros token Hin. cbn in *. inversion Hin.
Defined.
